(** * Instance accounting: charge intervals and total charge

    A shallow embedding of [accounting.py]: the event normalizer
    [get_actions_for_instance], the interval reconstructor
    [get_charge_intervals_for_instance] and the charge calculator
    [get_total_charge_for_instance], with the properties the specification
    states about them.

    Conventions of the embedding.
    - A [datetime] is the integer number of microseconds since the epoch of
      the UTC instant it denotes (the resolution of Python's [datetime]);
      [date_parser.parse] itself is not modelled, a provider record carries
      the instant its timestamp string denotes.  The window bounds [start]
      and [end] are instants of the same kind, so every comparison of the
      source is a comparison of integers.
    - Python dictionaries with a fixed set of keys (["action"], ["time"],
      ["start"], ["end"], ["state"]) are records; the three lookup tables are
      finite maps from strings.
    - An exception is a value of [exn]; a function that can raise returns a
      [result].  A function that talks to the cloud connection additionally
      returns the list of provider calls it made, in order.
    - The charge arithmetic is modelled twice.  [Binary64] is what the
      interpreter computes: Python integers are unbounded, a Python float is
      an IEEE 754 binary64 number, every float operation rounds to nearest
      (ties to even), a mixed operation converts its integer operand first
      and raises [OverflowError] when that is impossible.  The definitions
      outside [Binary64] read the same lines over exact rationals; they serve
      statements that do not depend on rounding. *)

From Stdlib Require Import ZArith QArith Lia Lqa Ascii.
From Stdlib Require Import Floats.SpecFloat.
From stdpp Require Import gmap strings list fin_maps sorting.

Open Scope Z_scope.

(** ** Exceptions and results *)

Inductive exn : Type :=
  | ValueError (msg : string)
  | Exception (msg : string)
  | IndexError (msg : string)
  | KeyError (key : string)
  | OverflowError (msg : string)
  | ZeroDivisionError (msg : string).

#[global] Instance exn_eq_dec : EqDecision exn.
Proof. solve_decision. Defined.

Inductive result (A : Type) : Type :=
  | Ok (a : A)
  | Raise (e : exn).
Arguments Ok {A} a.
Arguments Raise {A} e.

#[global] Instance result_ret : MRet result := λ A x, Ok x.
#[global] Instance result_bind : MBind result := λ A B f m,
  match m with
  | Ok x => f x
  | Raise e => Raise e
  end.

(** The two exceptions the reconstructor raises by hand (lines 73 and 81),
    under the names the specification gives them. *)
Definition InvalidRangeError : exn :=
  ValueError "End datetime cannot be before start datetime!".
Definition EmptyHistoryError : exn :=
  Exception "Action history is empty!".

(** [l[i]] for a non-negative index, and [d[k]]. *)
Definition py_index {A} (l : list A) (i : nat) : result A :=
  match l !! i with
  | Some x => Ok x
  | None => Raise (IndexError "list index out of range")
  end.

Definition py_getitem {V} (d : gmap string V) (k : string) : result V :=
  match d !! k with
  | Some v => Ok v
  | None => Raise (KeyError k)
  end.

(** A [for] loop whose body may raise: the state is threaded from left to
    right and the first exception ends the loop. *)
Fixpoint for_each {A S} (body : S → A → result S) (xs : list A) (s : S)
  : result S :=
  match xs with
  | [] => Ok s
  | x :: xs' => s' ← body s x; for_each body xs' s'
  end.

(** ** The cloud connection *)

Record raw_action := { ra_action : string; ra_start_time : Z }.
Record flavor := { original_name : string; vcpus : Z }.
Record server := { created_at : Z; server_flavor : flavor }.

(** [conn.compute.server_actions] and [conn.compute.get_server]. *)
Record connection := {
  server_actions : string → list raw_action;
  get_server : string → server
}.

Inductive call : Type :=
  | ServerActions (instance_id : string)
  | GetServer (instance_id : string).

(** A computation that uses the connection: the calls made, then the
    outcome. *)
Definition io (A : Type) : Type := (list call * result A)%type.

Definition calls {A} (m : io A) : list call := m.1.
Definition outcome {A} (m : io A) : result A := m.2.

#[global] Instance io_ret : MRet io := λ A x, ([], Ok x).
#[global] Instance io_bind : MBind io := λ A B f m,
  match m with
  | (t, Ok x) => let '(t', r) := f x in (t ++ t', r)
  | (t, Raise e) => (t, Raise e)
  end.

Definition lift {A} (r : result A) : io A := ([], r).

Definition call_server_actions (conn : connection) (instance_id : string)
  : io (list raw_action) :=
  ([ServerActions instance_id], Ok (server_actions conn instance_id)).

Definition call_get_server (conn : connection) (instance_id : string)
  : io server :=
  ([GetServer instance_id], Ok (get_server conn instance_id)).

(** ** Data model and lookup tables (lines 6-51) *)

Record action := { a_action : string; a_time : Z }.
Record interval := { i_start : Z; i_end : Z; i_state : string }.

#[global] Instance action_eq_dec : EqDecision action.
Proof. solve_decision. Defined.
#[global] Instance interval_eq_dec : EqDecision interval.
Proof. solve_decision. Defined.

Definition RELEVANT_EVENTS : list string :=
  [ "create"; "delete"; "pause"; "resume"; "shelve";
    "start"; "stop"; "suspend"; "unpause"; "unshelve" ].

Definition ACTION_TO_STATE_LOOKUP : gmap string string :=
  list_to_map
    [ ("create", "active");
      ("delete", "deleted");
      ("pause", "suspended");
      ("resume", "active");
      ("shelve", "shelved_offloaded");
      ("start", "active");
      ("stop", "stopped");
      ("suspend", "suspended");
      ("unpause", "active");
      ("unshelve", "active") ].

Definition STATE_CHARGE_MULTIPLIERS : gmap string Q :=
  list_to_map
    [ ("active", 1%Q);
      ("deleted", 0%Q);
      ("error", 0%Q);
      ("not_yet_created", 0%Q);
      ("paused", (3 # 4)%Q);
      ("resized", 1%Q);
      ("shelved_offloaded", 0%Q);
      ("stopped", (1 # 2)%Q);
      ("suspended", (3 # 4)%Q) ].

Definition FLAVOR_TYPE_CHARGE_MULTIPLIERS : gmap string Q :=
  list_to_map
    [ ("m3", 1%Q); ("g3", 2%Q); ("g3p", 0%Q); ("r3", 2%Q); ("p3", 1%Q) ].

(** ** Event filter and normalizer (lines 54-67) *)

(** [actions.sort(key=lambda action: action["time"])] is a stable sort:
    records with equal timestamps keep their relative order.  Insertion from
    the right, each record placed before the first one that is not earlier,
    computes that order. *)
Fixpoint insert_by_time (x : action) (l : list action) : list action :=
  match l with
  | [] => [x]
  | y :: l' =>
      if decide (a_time x ≤ a_time y) then x :: l
      else y :: insert_by_time x l'
  end.

Definition sort_by_time (l : list action) : list action :=
  foldr insert_by_time [] l.

Definition parse_action (a : raw_action) : action :=
  {| a_action := ra_action a; a_time := ra_start_time a |}.

Definition relevant_actions (raw : list raw_action) : list action :=
  filter (λ a, a_action a ∈ RELEVANT_EVENTS) (parse_action <$> raw).

Definition get_actions_for_instance (conn : connection) (instance_id : string)
  : io (list action) :=
  raw ← call_server_actions conn instance_id;
  let actions := relevant_actions raw in
  let actions := sort_by_time actions in
  first ← lift (py_index actions 0);
  if decide (a_action first ≠ "create") then
    srv ← call_get_server conn instance_id;
    mret ({| a_action := "create"; a_time := created_at srv |} :: actions)
  else mret actions.

(** ** Interval reconstructor (lines 71-122) *)

(** Lines 90-94: the scan for the last action at or before [start]; the
    loop stops at the first later action. *)
Fixpoint scan_starting_state (actions : list action) (start : Z)
  (starting_state : string) : result string :=
  match actions with
  | [] => Ok starting_state
  | a :: rest =>
      if decide (a_time a ≤ start) then
        s ← py_getitem ACTION_TO_STATE_LOOKUP (a_action a);
        scan_starting_state rest start s
      else Ok starting_state
  end.

(** Lines 84-94. *)
Definition determine_starting_state (actions : list action) (start : Z)
  : result string :=
  first ← py_index actions 0;
  if decide (start ≤ a_time first) then Ok "deleted"
  else scan_starting_state actions start "".

(** Lines 107-121: the body of the loop over [range(len(actions))]. *)
Definition interval_step (actions : list action) (end_ : Z)
  (intervals : list interval) (i : nat) : result (list interval) :=
  if decide (i = (length actions - 1)%nat) then
    a ← py_index actions i;
    state ← py_getitem ACTION_TO_STATE_LOOKUP (a_action a);
    Ok (intervals ++ [{| i_start := a_time a; i_end := end_; i_state := state |}])
  else
    a ← py_index actions i;
    b ← py_index actions (i + 1);
    state ← py_getitem ACTION_TO_STATE_LOOKUP (a_action a);
    Ok (intervals ++
          [{| i_start := a_time a; i_end := a_time b; i_state := state |}]).

(** Lines 96-122: the intervals, once the starting state is known. *)
Definition build_intervals (actions : list action) (start end_ : Z)
  (starting_state : string) : result (list interval) :=
  let actions := filter (λ a, start ≤ a_time a) actions in
  if decide (length actions = 0%nat) then
    Ok [{| i_start := start; i_end := end_; i_state := starting_state |}]
  else
    first ← py_index actions 0;
    for_each (interval_step actions end_)
      (seq 0 (length actions))
      [{| i_start := start; i_end := a_time first;
          i_state := starting_state |}].

(** Lines 77-122: everything after the action history was fetched. *)
Definition intervals_from_actions (actions : list action) (start end_ : Z)
  : result (list interval) :=
  let actions := filter (λ a, a_time a < end_) actions in
  if decide (length actions = 0%nat) then Raise EmptyHistoryError
  else
    starting_state ← determine_starting_state actions start;
    build_intervals actions start end_ starting_state.

Definition get_charge_intervals_for_instance (conn : connection)
  (instance_id : string) (start end_ : Z) : io (list interval) :=
  if decide (end_ < start) then lift (Raise InvalidRangeError)
  else
    actions ← get_actions_for_instance conn instance_id;
    lift (intervals_from_actions actions start end_).

(** ** Charge calculator over exact rationals (lines 126-140) *)

(** [name[:name.index(".")]]. *)
Definition flavor_prefix_of (name : string) : result string :=
  match String.index 0 "." name with
  | Some n => Ok (String.substring 0 n name)
  | None => Raise (ValueError "substring not found")
  end.

(** The arithmetic of lines 135-138 read over the rationals: every
    quotient, product and sum exact, so without the rounding and the
    [OverflowError] of the interpreter, which [Binary64] below has.  The
    lookups and their [KeyError] are those of the source. *)

(** [timedelta.total_seconds()] of the difference of two instants, as an
    exact number of seconds. *)
Definition total_seconds (micro : Z) : Q := (inject_Z micro / 1000000)%Q.

(** Lines 134-138, the body of the loop over the intervals, in exact
    arithmetic. *)
Definition charge_step (n_vcpus : Z) (flavor_prefix : string)
  (total_charge : Q) (iv : interval) : result Q :=
  let interval_duration := (total_seconds (i_end iv - i_start iv) / 3600)%Q in
  state_multiplier ← py_getitem STATE_CHARGE_MULTIPLIERS (i_state iv);
  flavor_multiplier ← py_getitem FLAVOR_TYPE_CHARGE_MULTIPLIERS flavor_prefix;
  let total_multiplier :=
    (state_multiplier * inject_Z n_vcpus * flavor_multiplier)%Q in
  Ok (total_charge + interval_duration * total_multiplier)%Q.

(** Lines 132-140 for a given interval list. *)
Definition total_charge_of_intervals (intervals : list interval)
  (n_vcpus : Z) (flavor_prefix : string) : result Q :=
  for_each (charge_step n_vcpus flavor_prefix) intervals 0%Q.

Definition get_total_charge_for_instance (conn : connection)
  (instance_id : string) (start end_ : Z) : io Q :=
  intervals ← get_charge_intervals_for_instance conn instance_id start end_;
  srv ← call_get_server conn instance_id;
  flavor_prefix ← lift (flavor_prefix_of (original_name (server_flavor srv)));
  lift (total_charge_of_intervals intervals (vcpus (server_flavor srv))
          flavor_prefix).

(** ** Charge calculator in binary64 (lines 126-140) *)

Module Binary64.

(** The format of a Python float. *)
Definition prec : Z := 53.
Definition emax : Z := 1024.

(** A Python number as the charge calculator meets it. *)
Inductive number : Type :=
  | PyInt (z : Z)
  | PyFloat (x : spec_float).

Definition is_zero (x : spec_float) : bool :=
  match x with
  | S754_zero _ => true
  | _ => false
  end.

(** [float(z)]: the nearest float, if there is one. *)
Definition int_to_float (z : Z) : result spec_float :=
  match binary_normalize prec emax z 0 false with
  | S754_infinity _ =>
      Raise (OverflowError "int too large to convert to float")
  | x => Ok x
  end.

(** [a / b] on two integers: the float nearest to the exact quotient. *)
Definition int_true_divide (a b : Z) : result spec_float :=
  if decide (b = 0) then Raise (ZeroDivisionError "division by zero")
  else if decide (a = 0) then Ok (S754_zero (b <? 0))
  else
    let '(mz, ez, lz) :=
      SFdiv_core_binary prec emax (Z.abs a) 0 (Z.abs b) 0 in
    match binary_round_aux prec emax (xorb (a <? 0) (b <? 0)) mz ez lz with
    | S754_infinity _ =>
        Raise (OverflowError "integer division result too large for a float")
    | x => Ok x
    end.

Definition to_float (x : number) : result spec_float :=
  match x with
  | PyInt z => int_to_float z
  | PyFloat f => Ok f
  end.

(** [x * y], [x + y] and [x / y]: exact on two integers (the quotient
    apart), in floating point as soon as one operand is a float. *)
Definition mul (x y : number) : result number :=
  match x, y with
  | PyInt a, PyInt b => Ok (PyInt (a * b))
  | _, _ => a ← to_float x; b ← to_float y; Ok (PyFloat (SFmul prec emax a b))
  end.

Definition add (x y : number) : result number :=
  match x, y with
  | PyInt a, PyInt b => Ok (PyInt (a + b))
  | _, _ => a ← to_float x; b ← to_float y; Ok (PyFloat (SFadd prec emax a b))
  end.

Definition truediv (x y : number) : result number :=
  match x, y with
  | PyInt a, PyInt b => q ← int_true_divide a b; Ok (PyFloat q)
  | _, _ =>
      a ← to_float x; b ← to_float y;
      if is_zero b then Raise (ZeroDivisionError "float division by zero")
      else Ok (PyFloat (SFdiv prec emax a b))
  end.

(** [timedelta.total_seconds()]: the microseconds divided by [10**6]. *)
Definition total_seconds (micro : Z) : result number :=
  truediv (PyInt micro) (PyInt 1000000).

(** The literals [0.75] and [0.5]. *)
Definition float_0_75 : spec_float :=
  Eval vm_compute in binary_normalize prec emax 3 (-2) false.
Definition float_0_5 : spec_float :=
  Eval vm_compute in binary_normalize prec emax 1 (-1) false.

Definition STATE_CHARGE_MULTIPLIERS : gmap string number :=
  list_to_map
    [ ("active", PyInt 1);
      ("deleted", PyInt 0);
      ("error", PyInt 0);
      ("not_yet_created", PyInt 0);
      ("paused", PyFloat float_0_75);
      ("resized", PyInt 1);
      ("shelved_offloaded", PyInt 0);
      ("stopped", PyFloat float_0_5);
      ("suspended", PyFloat float_0_75) ].

Definition FLAVOR_TYPE_CHARGE_MULTIPLIERS : gmap string number :=
  list_to_map
    [ ("m3", PyInt 1); ("g3", PyInt 2); ("g3p", PyInt 0); ("r3", PyInt 2);
      ("p3", PyInt 1) ].

(** Lines 134-138: the body of the loop over the intervals.  The product
    [STATE[...] * vcpus] is formed before the flavor table is consulted. *)
Definition charge_step (n_vcpus : Z) (flavor_prefix : string)
  (total_charge : number) (iv : interval) : result number :=
  seconds ← total_seconds (i_end iv - i_start iv);
  interval_duration ← truediv seconds (PyInt 3600);
  state_multiplier ← py_getitem STATE_CHARGE_MULTIPLIERS (i_state iv);
  per_vcpu ← mul state_multiplier (PyInt n_vcpus);
  flavor_multiplier ← py_getitem FLAVOR_TYPE_CHARGE_MULTIPLIERS flavor_prefix;
  total_multiplier ← mul per_vcpu flavor_multiplier;
  charge ← mul interval_duration total_multiplier;
  add total_charge charge.

(** Lines 132-140 for a given interval list. *)
Definition total_charge_of_intervals (intervals : list interval)
  (n_vcpus : Z) (flavor_prefix : string) : result number :=
  for_each (charge_step n_vcpus flavor_prefix) intervals (PyInt 0).

Definition get_total_charge_for_instance (conn : connection)
  (instance_id : string) (start end_ : Z) : io number :=
  intervals ← get_charge_intervals_for_instance conn instance_id start end_;
  srv ← call_get_server conn instance_id;
  flavor_prefix ← lift (flavor_prefix_of (original_name (server_flavor srv)));
  lift (total_charge_of_intervals intervals (vcpus (server_flavor srv))
          flavor_prefix).

(** *** Vocabulary *)

(** The rational a Python number stands for, if it is one. *)
Definition exact_value (x : number) : option Q :=
  match x with
  | PyInt z => Some (inject_Z z)
  | PyFloat (S754_zero _) => Some 0%Q
  | PyFloat (S754_finite s m e) =>
      let mag : Q :=
        match e with
        | Z0 => inject_Z (Zpos m)
        | Zpos k => inject_Z (Zpos m * Z.pow_pos 2 k)
        | Zneg k => (Zpos m # Pos.pow 2 k)%Q
        end in
      Some (if s then - mag else mag)%Q
  | PyFloat _ => None
  end.

(** The sign bit is clear, or the float is not a number. *)
Definition sign_clear (x : spec_float) : Prop :=
  match x with
  | S754_zero s | S754_infinity s | S754_finite s _ _ => s = false
  | S754_nan => True
  end.

Definition not_negative (x : number) : Prop :=
  match x with
  | PyInt z => 0 ≤ z
  | PyFloat f => sign_clear f
  end.

(** The outcome is a value with the given property, or [OverflowError]. *)
Definition returns_or_overflows {A} (P : A → Prop) (r : result A) : Prop :=
  match r with
  | Ok x => P x
  | Raise (OverflowError _) => True
  | Raise _ => False
  end.

Definition is_float (x : number) : Prop :=
  match x with
  | PyFloat _ => True
  | PyInt _ => False
  end.

(** The charge in the words of the specification, evaluated as the
    interpreter does: the duration of an interval in hours, its contribution,
    and the contributions added from left to right. *)
Definition state_multiplier (iv : interval) : number :=
  default (PyInt 0) (STATE_CHARGE_MULTIPLIERS !! i_state iv).

Definition duration_hours (iv : interval) : result number :=
  seconds ← truediv (PyInt (i_end iv - i_start iv)) (PyInt 1000000);
  truediv seconds (PyInt 3600).

Definition contribution (n_vcpus : Z) (flavor_multiplier : number)
  (iv : interval) : result number :=
  hours ← duration_hours iv;
  per_vcpu ← mul (state_multiplier iv) (PyInt n_vcpus);
  multiplier ← mul per_vcpu flavor_multiplier;
  mul hours multiplier.

(** The same product taken from left to right, as the formula
    [duration * state * vcpus * family] reads without the parentheses of
    line 136. *)
Definition contribution_left_to_right (n_vcpus : Z)
  (flavor_multiplier : number) (iv : interval) : result number :=
  hours ← duration_hours iv;
  by_state ← mul hours (state_multiplier iv);
  by_vcpus ← mul by_state (PyInt n_vcpus);
  mul by_vcpus flavor_multiplier.

Fixpoint contributions (n_vcpus : Z) (flavor_multiplier : number)
  (intervals : list interval) : result (list number) :=
  match intervals with
  | [] => Ok []
  | iv :: rest =>
      c ← contribution n_vcpus flavor_multiplier iv;
      cs ← contributions n_vcpus flavor_multiplier rest;
      Ok (c :: cs)
  end.

Fixpoint sum_from (total : number) (cs : list number) : result number :=
  match cs with
  | [] => Ok total
  | c :: cs' => total' ← add total c; sum_from total' cs'
  end.

End Binary64.

(** ** Running the model on the specification's examples *)

Definition conn_of (raw : list raw_action) (created : Z) (name : string)
  (n_vcpus : Z) : connection :=
  {| server_actions := λ _, raw;
     get_server := λ _,
       {| created_at := created;
          server_flavor := {| original_name := name; vcpus := n_vcpus |} |} |}.

Definition hour : Z := 3600 * 1000000.

(** ** Vocabulary of the specification *)

Definition by_time (a b : action) : Prop := a_time a ≤ a_time b.

(** Ordered ascending by timestamp. *)
Definition ascending (l : list action) : Prop := StronglySorted by_time l.

(** The action kind is in the relevant-kind enumeration. *)
Definition relevant (a : action) : Prop := a_action a ∈ RELEVANT_EVENTS.

(** [ACTION_TO_STATE] of an action; the table is total on relevant kinds
    (lemma [mapped_state_relevant]). *)
Definition mapped_state (a : action) : string :=
  default "" (ACTION_TO_STATE_LOOKUP !! a_action a).

(** The states the reconstructor can produce. *)
Definition PRODUCED_STATES : list string :=
  [ "active"; "deleted"; "suspended"; "shelved_offloaded"; "stopped" ].

(** The create record line 65 puts in front. *)
Definition synthesized_create (conn : connection) (instance_id : string)
  : action :=
  {| a_action := "create"; a_time := created_at (get_server conn instance_id) |}.

(** The reconstructed intervals in the specification's words: the interval
    of an action runs to the timestamp of the next action, that of the final
    action to [end_]; before them comes the interval from [start] to the
    first action, in the starting state. *)
Definition next_time (actions : list action) (end_ : Z) : Z :=
  match actions with
  | [] => end_
  | a :: _ => a_time a
  end.

Fixpoint action_intervals (actions : list action) (end_ : Z) : list interval :=
  match actions with
  | [] => []
  | a :: rest =>
      {| i_start := a_time a; i_end := next_time rest end_;
         i_state := mapped_state a |} :: action_intervals rest end_
  end.

Definition spec_intervals (start end_ : Z) (starting_state : string)
  (actions : list action) : list interval :=
  {| i_start := start; i_end := next_time actions end_;
     i_state := starting_state |} :: action_intervals actions end_.

(** The starting state in the specification's words: [deleted] when [start]
    is at or before the first action, else the mapped state of the last
    action whose timestamp is at or before [start]. *)
Definition spec_starting_state (actions : list action) (start : Z)
  : option string :=
  first ← head actions;
  if decide (start ≤ a_time first) then Some "deleted"
  else mapped_state <$> last (filter (λ a, a_time a ≤ start) actions).

(** Boundaries that chain from [s] to [e]: the first interval starts at [s],
    each next one starts where the previous ended, the last ends at [e]. *)
Fixpoint chained (s e : Z) (ivs : list interval) : Prop :=
  match ivs with
  | [] => False
  | iv :: rest =>
      i_start iv = s ∧
      match rest with
      | [] => i_end iv = e
      | _ :: _ => chained (i_end iv) e rest
      end
  end.

(** The coverage property of an interval sequence for the window
    [[start, end_)]: it starts at [start], ends at [end_], adjacent intervals
    share their boundary, and no interval runs backwards. *)
Definition adjacent_meet (ivs : list interval) : Prop :=
  ∀ i a b, ivs !! i = Some a → ivs !! S i = Some b → i_end a = i_start b.

Definition well_ordered (ivs : list interval) : Prop :=
  Forall (λ iv, i_start iv ≤ i_end iv) ivs.

Definition covers_window (start end_ : Z) (ivs : list interval) : Prop :=
  i_start <$> head ivs = Some start
  ∧ i_end <$> last ivs = Some end_
  ∧ adjacent_meet ivs
  ∧ well_ordered ivs.

(** The charge in the specification's words: the duration of an interval in
    hours, its contribution, and the sum of the contributions. *)
Definition duration_hours (iv : interval) : Q :=
  (inject_Z (i_end iv - i_start iv) / 1000000 / 3600)%Q.

Definition state_multiplier (iv : interval) : Q :=
  default 0%Q (STATE_CHARGE_MULTIPLIERS !! i_state iv).

Definition contribution (n_vcpus : Z) (flavor_multiplier : Q) (iv : interval)
  : Q :=
  (duration_hours iv * state_multiplier iv * inject_Z n_vcpus
   * flavor_multiplier)%Q.

Fixpoint spec_total_charge (intervals : list interval) (n_vcpus : Z)
  (flavor_multiplier : Q) : Q :=
  match intervals with
  | [] => 0%Q
  | iv :: rest =>
      (contribution n_vcpus flavor_multiplier iv
       + spec_total_charge rest n_vcpus flavor_multiplier)%Q
  end.

(** A string without the separator of flavor names. *)
Fixpoint dotless (s : string) : Prop :=
  match s with
  | EmptyString => True
  | String c s' => c ≠ "."%char ∧ dotless s'
  end.

(** The summed length of an interval sequence, in microseconds. *)
Definition total_duration (ivs : list interval) : Z :=
  foldr (λ iv n, i_end iv - i_start iv + n) 0 ivs.

(** The length of a window in hours. *)
Definition window_hours (start end_ : Z) : Q :=
  (inject_Z (end_ - start) / 1000000 / 3600)%Q.

(** The reconstruction of an ascending history in closed form: the actions
    inside the window, the state at its start, and the intervals. *)
Definition kept_actions (actions : list action) (start end_ : Z)
  : list action :=
  filter (λ a, start ≤ a_time a ∧ a_time a < end_) actions.

Definition window_start_state (actions : list action) (start end_ : Z)
  : string :=
  match actions with
  | [] => ""
  | first :: _ =>
      if decide (start ≤ a_time first) then "deleted"
      else from_option mapped_state ""
             (last (filter (λ a, a_time a ≤ start ∧ a_time a < end_) actions))
  end.

Definition window_intervals (actions : list action) (start end_ : Z)
  : list interval :=
  spec_intervals start end_ (window_start_state actions start end_)
    (kept_actions actions start end_).

(** Time accounting in whole microseconds: the lengths of the intervals,
    each weighted by an integer rate of its state, and the time spent in one
    state. *)
Definition weighted_duration (rate : string → Z) (ivs : list interval) : Z :=
  foldr (λ iv n, rate (i_state iv) * (i_end iv - i_start iv) + n) 0 ivs.

Definition time_in_state (state : string) (ivs : list interval) : Z :=
  weighted_duration (λ s, if decide (s = state) then 1 else 0) ivs.

(** * Properties *)

#[local] Arguments RELEVANT_EVENTS : simpl never.
#[local] Arguments ACTION_TO_STATE_LOOKUP : simpl never.
#[local] Arguments STATE_CHARGE_MULTIPLIERS : simpl never.
#[local] Arguments FLAVOR_TYPE_CHARGE_MULTIPLIERS : simpl never.
#[local] Arguments mapped_state : simpl never.

(** ** Monad plumbing *)

Lemma py_index_ok {A} (l : list A) i x : l !! i = Some x → py_index l i = Ok x.
Proof. unfold py_index. by intros ->. Qed.

Lemma py_getitem_ok {V} (d : gmap string V) k v :
  d !! k = Some v → py_getitem d k = Ok v.
Proof. unfold py_getitem. by intros ->. Qed.

(** ** The sort *)

Lemma insert_by_time_perm x l : insert_by_time x l ≡ₚ x :: l.
Proof.
  induction l as [|y l IH]; simpl; [done|].
  case_decide; [done|]. rewrite IH. apply Permutation_swap.
Qed.

Lemma sort_by_time_perm l : sort_by_time l ≡ₚ l.
Proof.
  induction l as [|x l IH]; simpl; [done|].
  by rewrite insert_by_time_perm, IH.
Qed.

Lemma insert_by_time_ascending x l :
  ascending l → ascending (insert_by_time x l).
Proof.
  unfold ascending. induction 1 as [|y l Hl IH Hy]; simpl.
  - repeat constructor.
  - case_decide as Hxy.
    + constructor; [by constructor|].
      constructor; [done|].
      eapply Forall_impl; [exact Hy|]. unfold by_time in *. intros; lia.
    + constructor; [done|].
      rewrite insert_by_time_perm. constructor; [|done].
      unfold by_time. lia.
Qed.

Lemma sort_by_time_ascending l : ascending (sort_by_time l).
Proof.
  induction l as [|x l IH]; simpl.
  - constructor.
  - by apply insert_by_time_ascending.
Qed.

(** Stability: the records of any one timestamp come out in the order they
    went in. *)
Lemma insert_by_time_stable t x l :
  filter (λ a, a_time a = t) (insert_by_time x l)
  = filter (λ a, a_time a = t) (x :: l).
Proof.
  induction l as [|y l IH]; simpl; [done|].
  case_decide as Hxy; [done|].
  rewrite !filter_cons in *.
  repeat case_decide; simplify_eq; try lia; by rewrite ?IH.
Qed.

Lemma sort_by_time_stable t l :
  filter (λ a, a_time a = t) (sort_by_time l) = filter (λ a, a_time a = t) l.
Proof.
  induction l as [|x l IH]; simpl; [done|].
  rewrite insert_by_time_stable, !filter_cons, IH. done.
Qed.

(** Ascending order and stability determine the result: whatever stable
    sorting algorithm runs behind [list.sort], it returns [sort_by_time]. *)
Lemma ascending_stable_unique l1 l2 :
  ascending l1 → ascending l2 →
  (∀ t, filter (λ a, a_time a = t) l1 = filter (λ a, a_time a = t) l2) →
  l1 = l2.
Proof.
  intros H1. revert l2.
  induction H1 as [|x l1 H1 IH Hx]; intros l2 H2 Heq.
  - destruct l2 as [|y l2]; [done|].
    specialize (Heq (a_time y)). by rewrite filter_cons_True in Heq.
  - destruct H2 as [|y l2 H2 Hy].
    { specialize (Heq (a_time x)). by rewrite filter_cons_True in Heq. }
    assert (a_time x = a_time y) as Hxy.
    { assert (x ∈ y :: l2) as Hin.
      { eapply (proj1 (list_elem_of_filter (λ a, a_time a = a_time x) _ _)).
        rewrite <- Heq, filter_cons_True by done. left. }
      assert (y ∈ x :: l1) as Hin'.
      { eapply (proj1 (list_elem_of_filter (λ a, a_time a = a_time y) _ _)).
        rewrite Heq, filter_cons_True by done. left. }
      apply elem_of_cons in Hin as [->|Hin]; [done|].
      apply elem_of_cons in Hin' as [->|Hin']; [done|].
      rewrite Forall_forall in Hx, Hy.
      specialize (Hx _ Hin'). specialize (Hy _ Hin). unfold by_time in *. lia. }
    pose proof (Heq (a_time x)) as Hhead.
    rewrite !filter_cons_True in Hhead by done.
    injection Hhead as -> _. f_equal. apply IH; [done|].
    intros t. specialize (Heq t). rewrite !filter_cons in Heq.
    case_decide; [by injection Heq|done].
Qed.

Lemma sort_by_time_unique l l' :
  ascending l' →
  (∀ t, filter (λ a, a_time a = t) l' = filter (λ a, a_time a = t) l) →
  l' = sort_by_time l.
Proof.
  intros Hasc Hst. apply ascending_stable_unique; [done|..].
  - apply sort_by_time_ascending.
  - intros t. by rewrite sort_by_time_stable.
Qed.

Lemma sort_by_time_nil l : sort_by_time l = [] ↔ l = [].
Proof.
  split; [|by intros ->].
  intros H. apply Permutation_nil_r. by rewrite <- H, sort_by_time_perm.
Qed.

Lemma ascending_head_earliest first rest a :
  ascending (first :: rest) → a ∈ first :: rest → a_time first ≤ a_time a.
Proof.
  intros Hs Ha. apply StronglySorted_inv in Hs as [_ Hf].
  apply elem_of_cons in Ha as [->|Ha]; [lia|].
  rewrite Forall_forall in Hf. by apply Hf.
Qed.

Lemma Forall_filter_keep {A} (Q P : A → Prop) `{!∀ a, Decision (P a)} l :
  Forall Q l → Forall Q (filter P l).
Proof.
  rewrite !Forall_forall. intros HQ x Hx.
  apply list_elem_of_filter in Hx as [_ Hx]. by apply HQ.
Qed.

Lemma filter_none {A} (P : A → Prop) `{!∀ a, Decision (P a)} l :
  Forall (λ a, ¬ P a) l → filter P l = [].
Proof.
  induction 1 as [|x l Hx _ IH]; [done|]. by rewrite filter_cons_False.
Qed.

Lemma ascending_filter (P : action → Prop) `{!∀ a, Decision (P a)} l :
  ascending l → ascending (filter P l).
Proof.
  unfold ascending. induction 1 as [|x l Hl IH Hx]; [constructor|].
  rewrite filter_cons. case_decide; [|done].
  constructor; [done|]. by apply Forall_filter_keep.
Qed.

(** ** The lookup tables *)

Lemma mapped_state_relevant a :
  relevant a → ACTION_TO_STATE_LOOKUP !! a_action a = Some (mapped_state a).
Proof.
  unfold relevant, mapped_state, RELEVANT_EVENTS. intros H.
  repeat (apply elem_of_cons in H as [->|H]; [reflexivity|]).
  by apply elem_of_nil in H.
Qed.

Lemma mapped_state_produced a : relevant a → mapped_state a ∈ PRODUCED_STATES.
Proof.
  unfold relevant, mapped_state, RELEVANT_EVENTS, PRODUCED_STATES. intros H.
  repeat (apply elem_of_cons in H as [->|H]; [vm_compute; set_solver|]).
  by apply elem_of_nil in H.
Qed.

Lemma produced_state_charged s :
  s ∈ PRODUCED_STATES → is_Some (STATE_CHARGE_MULTIPLIERS !! s).
Proof.
  unfold PRODUCED_STATES. intros H.
  repeat (apply elem_of_cons in H as [->|H]; [by eexists|]).
  by apply elem_of_nil in H.
Qed.

Lemma produced_state_not_unused s :
  s ∈ PRODUCED_STATES → s ∉ ["paused"; "not_yet_created"; "error"; "resized"].
Proof.
  unfold PRODUCED_STATES. intros H.
  repeat (apply elem_of_cons in H as [->|H];
          [apply (bool_decide_unpack _); vm_compute; exact I|]).
  by apply elem_of_nil in H.
Qed.

(** ** The normalizer *)

Lemma get_actions_for_instance_unfold conn instance_id :
  get_actions_for_instance conn instance_id =
  match sort_by_time (relevant_actions (server_actions conn instance_id)) with
  | [] => ([ServerActions instance_id],
           Raise (IndexError "list index out of range"))
  | first :: rest =>
      if decide (a_action first = "create") then
        ([ServerActions instance_id], Ok (first :: rest))
      else
        ([ServerActions instance_id; GetServer instance_id],
         Ok (synthesized_create conn instance_id :: first :: rest))
  end.
Proof.
  unfold get_actions_for_instance, call_server_actions.
  cbn.
  destruct (sort_by_time _) as [|first rest]; cbn; [done|].
  by repeat case_decide.
Qed.

Lemma relevant_actions_relevant raw : Forall relevant (relevant_actions raw).
Proof.
  apply Forall_forall. intros a Ha.
  by apply list_elem_of_filter in Ha as [Ha _].
Qed.

Lemma sort_by_time_relevant l : Forall relevant l → Forall relevant (sort_by_time l).
Proof. intros H. by rewrite sort_by_time_perm. Qed.

(** Whatever the normalizer returns is a non-empty sequence of relevant
    actions that starts with a create. *)
Lemma get_actions_for_instance_relevant conn instance_id actions :
  outcome (get_actions_for_instance conn instance_id) = Ok actions →
  Forall relevant actions ∧
  ∃ first rest, actions = first :: rest ∧ a_action first = "create".
Proof.
  rewrite get_actions_for_instance_unfold.
  pose proof (sort_by_time_relevant _
    (relevant_actions_relevant (server_actions conn instance_id))) as Hrel.
  destruct (sort_by_time _) as [|first rest]; [done|].
  case_decide as Hc; cbn; intros [= <-].
  - split; [done|]. by exists first, rest.
  - split.
    + constructor; [|done]. unfold relevant, RELEVANT_EVENTS. set_solver.
    + by eexists _, _.
Qed.

(** ** The starting state *)

Lemma scan_starting_state_total actions start s :
  Forall relevant actions →
  ∃ st, scan_starting_state actions start s = Ok st
        ∧ (st = s ∨ st ∈ PRODUCED_STATES).
Proof.
  intros Hrel. revert s.
  induction Hrel as [|a rest Ha _ IH]; intros s; simpl; [by eauto|].
  case_decide; [|by eauto].
  rewrite (py_getitem_ok _ _ _ (mapped_state_relevant a Ha)). cbn.
  destruct (IH (mapped_state a)) as (st & -> & [->|Hst]); eauto.
  eexists; split; [done|]. right. by apply mapped_state_produced.
Qed.

(** On a non-empty history the starting state is always found, and is one
    of the produced states: the initial [""] of line 84 never survives. *)
Lemma determine_starting_state_total actions start :
  actions ≠ [] → Forall relevant actions →
  ∃ st, determine_starting_state actions start = Ok st
        ∧ st ∈ PRODUCED_STATES.
Proof.
  destruct actions as [|first rest]; [done|]. intros _ Hrel.
  unfold determine_starting_state. cbn. case_decide as Hstart.
  - eexists; split; [done|]. unfold PRODUCED_STATES. set_solver.
  - apply Forall_cons in Hrel as [Hfirst Hrest].
    rewrite decide_True by lia.
    rewrite (py_getitem_ok _ _ _ (mapped_state_relevant first Hfirst)). cbn.
    destruct (scan_starting_state_total rest start (mapped_state first) Hrest)
      as (st & -> & [->|Hst]); eauto using mapped_state_produced.
Qed.

(** On an ascending history the scan ends on the last action at or before
    [start]. *)
Lemma scan_starting_state_ascending actions start s :
  ascending actions → Forall relevant actions →
  scan_starting_state actions start s
  = Ok (from_option mapped_state s
          (last (filter (λ a, a_time a ≤ start) actions))).
Proof.
  intros Hasc Hrel. revert s.
  induction Hasc as [|a rest Hasc IH Ha]; intros s; simpl; [done|].
  apply Forall_cons in Hrel as [Harel Hrel].
  rewrite filter_cons. case_decide as Hle.
  - rewrite (py_getitem_ok _ _ _ (mapped_state_relevant a Harel)). cbn.
    rewrite IH by done. rewrite last_cons.
    by destruct (last (filter _ rest)).
  - replace (filter (λ a0, a_time a0 ≤ start) rest) with (@nil action); [done|].
    symmetry. apply filter_none.
    eapply Forall_impl; [exact Ha|]. unfold by_time. intros; lia.
Qed.

Lemma determine_starting_state_ascending first rest start :
  ascending (first :: rest) → Forall relevant (first :: rest) →
  determine_starting_state (first :: rest) start
  = if decide (start ≤ a_time first) then Ok "deleted"
    else Ok (from_option mapped_state ""
               (last (filter (λ a, a_time a ≤ start) (first :: rest)))).
Proof.
  intros Hasc Hrel. unfold determine_starting_state. cbn [py_index lookup list_lookup mbind result_bind].
  case_decide; [done|]. by apply scan_starting_state_ascending.
Qed.

Lemma determine_starting_state_spec actions start :
  actions ≠ [] → ascending actions → Forall relevant actions →
  ∃ st, spec_starting_state actions start = Some st
        ∧ determine_starting_state actions start = Ok st.
Proof.
  destruct actions as [|first rest]; [done|]. intros _ Hasc Hrel.
  rewrite determine_starting_state_ascending by done.
  unfold spec_starting_state. cbn [head mbind option_bind].
  case_decide as Hstart; [by eauto|].
  rewrite filter_cons_True by lia. rewrite last_cons.
  destruct (last (filter _ rest)); cbn; eauto.
Qed.

(** ** The interval loop *)

(** One turn of the loop at index [length pre]. *)
Lemma interval_step_spec pre a rest end_ acc :
  relevant a →
  interval_step (pre ++ a :: rest) end_ acc (length pre)
  = Ok (acc ++ [{| i_start := a_time a; i_end := next_time rest end_;
                   i_state := mapped_state a |}]).
Proof.
  intros Ha. unfold interval_step.
  rewrite (py_index_ok _ _ a) by by apply list_lookup_middle.
  cbn [mbind result_bind].
  rewrite (py_getitem_ok _ _ _ (mapped_state_relevant a Ha)).
  rewrite length_app. cbn [length].
  destruct rest as [|b rest'].
  - by rewrite decide_True by (simpl; lia).
  - rewrite decide_False by (simpl; lia).
    rewrite (py_index_ok _ (length pre + 1) b); [done|].
    rewrite (cons_middle a), app_assoc.
    apply list_lookup_middle. rewrite length_app. cbn. lia.
Qed.

(** The loop over [range(len(actions))], started anywhere in the list,
    appends the intervals of the actions still to come. *)
Lemma interval_loop pre suf end_ acc :
  Forall relevant suf →
  for_each (interval_step (pre ++ suf) end_)
    (seq (length pre) (length suf)) acc
  = Ok (acc ++ action_intervals suf end_).
Proof.
  intros Hrel. revert pre acc.
  induction Hrel as [|a rest Ha Hrest IH]; intros pre acc.
  - cbn. by rewrite app_nil_r.
  - cbn [length seq for_each].
    rewrite interval_step_spec by done. cbn [mbind result_bind].
    specialize (IH (pre ++ [a])
      (acc ++ [{| i_start := a_time a; i_end := next_time rest end_;
                  i_state := mapped_state a |}])).
    rewrite <- app_assoc, length_app in IH. cbn [app length] in IH.
    replace (length pre + 1)%nat with (S (length pre)) in IH by lia.
    rewrite IH. by rewrite <- app_assoc.
Qed.

(** ** The reconstructor after the fetch *)

Lemma intervals_from_actions_empty actions start end_ :
  filter (λ a, a_time a < end_) actions = [] →
  intervals_from_actions actions start end_ = Raise EmptyHistoryError.
Proof. unfold intervals_from_actions. by intros ->. Qed.

Lemma build_intervals_shape actions start end_ st :
  Forall relevant actions →
  build_intervals actions start end_ st
  = Ok (spec_intervals start end_ st (filter (λ a, start ≤ a_time a) actions)).
Proof.
  intros Hrel. unfold build_intervals. cbv zeta.
  set (kept := filter (λ a, start ≤ a_time a) actions).
  assert (Forall relevant kept) as Hkept by by apply Forall_filter_keep.
  destruct kept as [|first rest] eqn:Ekept; [done|].
  rewrite decide_False by done.
  cbn [py_index lookup list_lookup mbind result_bind].
  by rewrite (interval_loop [] (first :: rest)).
Qed.

(** With some relevant action before [end_], reconstruction succeeds and
    returns the intervals the specification describes, whatever the order
    of the actions. *)
Lemma intervals_from_actions_shape actions start end_ :
  Forall relevant actions →
  filter (λ a, a_time a < end_) actions ≠ [] →
  ∃ st, determine_starting_state
          (filter (λ a, a_time a < end_) actions) start = Ok st
        ∧ st ∈ PRODUCED_STATES
        ∧ intervals_from_actions actions start end_
          = Ok (spec_intervals start end_ st
                  (filter (λ a, start ≤ a_time a)
                     (filter (λ a, a_time a < end_) actions))).
Proof.
  intros Hrel Hne. unfold intervals_from_actions. cbv zeta.
  set (visible := filter (λ a, a_time a < end_) actions) in *.
  assert (Forall relevant visible) as Hvis by by apply Forall_filter_keep.
  destruct (determine_starting_state_total visible start Hne Hvis)
    as (st & Hst & Hprod).
  exists st. split; [done|]. split; [done|].
  rewrite decide_False by (by destruct visible).
  rewrite Hst. cbn [mbind result_bind].
  by apply build_intervals_shape.
Qed.

(** ** Chained boundaries *)

Lemma chained_head s e ivs : chained s e ivs → i_start <$> head ivs = Some s.
Proof. destruct ivs as [|iv rest]; [done|]. by intros [<- _]. Qed.

Lemma chained_last s e ivs : chained s e ivs → i_end <$> last ivs = Some e.
Proof.
  revert s. induction ivs as [|iv rest IH]; intros s; [done|].
  intros [_ H]. destruct rest as [|iv' rest']; [by rewrite <- H|].
  rewrite last_cons_cons. by eapply IH.
Qed.

Lemma chained_adjacent s e ivs : chained s e ivs → adjacent_meet ivs.
Proof.
  revert s. induction ivs as [|iv rest IH]; intros s; [done|].
  intros [_ H] i a b Ha Hb. destruct rest as [|iv' rest']; [done|].
  destruct i as [|i]; cbn in Ha, Hb.
  - destruct H as [H _]. congruence.
  - by eapply (IH _ H i).
Qed.

Lemma action_intervals_chained a rest end_ :
  chained (a_time a) end_ (action_intervals (a :: rest) end_).
Proof.
  revert a. induction rest as [|b rest IH]; intros a; [done|].
  split; [done|]. apply IH.
Qed.

Lemma spec_intervals_chained start end_ st actions :
  chained start end_ (spec_intervals start end_ st actions).
Proof.
  destruct actions as [|a rest]; [done|].
  split; [done|]. apply action_intervals_chained.
Qed.

Lemma action_intervals_well_ordered actions end_ :
  ascending actions → Forall (λ a, a_time a < end_) actions →
  well_ordered (action_intervals actions end_).
Proof.
  unfold well_ordered.
  induction 1 as [|a rest Hasc IH Ha]; intros Hend; [constructor|].
  apply Forall_cons in Hend as [Haend Hend].
  constructor; [|by apply IH]. cbn.
  destruct rest as [|b rest']; cbn; [lia|].
  apply Forall_cons in Ha as [Hab _]. exact Hab.
Qed.

Lemma spec_intervals_well_ordered start end_ st actions :
  start ≤ end_ → ascending actions →
  Forall (λ a, start ≤ a_time a) actions →
  Forall (λ a, a_time a < end_) actions →
  well_ordered (spec_intervals start end_ st actions).
Proof.
  intros Hse Hasc Hstart Hend. constructor.
  - cbn. destruct actions as [|a rest]; cbn; [done|].
    by apply Forall_cons in Hstart as [? _].
  - by apply action_intervals_well_ordered.
Qed.

Lemma action_intervals_states actions end_ :
  Forall relevant actions →
  Forall (λ iv, i_state iv ∈ PRODUCED_STATES) (action_intervals actions end_).
Proof.
  induction 1 as [|a rest Ha _ IH]; constructor; [|done].
  by apply mapped_state_produced.
Qed.

Lemma filter_holds {A} (P : A → Prop) `{!∀ a, Decision (P a)} l :
  Forall P (filter P l).
Proof.
  apply Forall_forall. intros x Hx. by apply list_elem_of_filter in Hx as [? _].
Qed.

(** ** The reconstructor, end to end *)

Lemma get_charge_intervals_for_instance_unfold conn instance_id start end_ :
  get_charge_intervals_for_instance conn instance_id start end_ =
  if decide (end_ < start) then ([], Raise InvalidRangeError)
  else
    match get_actions_for_instance conn instance_id with
    | (t, Ok actions) => (t, intervals_from_actions actions start end_)
    | (t, Raise e) => (t, Raise e)
    end.
Proof.
  unfold get_charge_intervals_for_instance. case_decide; [done|].
  destruct (get_actions_for_instance _ _) as [t [actions|e]]; cbn; [|done].
  by rewrite app_nil_r.
Qed.

(** A normal return decomposes into the guard, the fetch and the shape of
    the result. *)
Lemma get_charge_intervals_for_instance_ok conn instance_id start end_ ivs :
  outcome (get_charge_intervals_for_instance conn instance_id start end_)
  = Ok ivs →
  start ≤ end_ ∧
  ∃ actions st,
    outcome (get_actions_for_instance conn instance_id) = Ok actions
    ∧ Forall relevant actions
    ∧ st ∈ PRODUCED_STATES
    ∧ ivs = spec_intervals start end_ st
              (filter (λ a, start ≤ a_time a)
                 (filter (λ a, a_time a < end_) actions)).
Proof.
  rewrite get_charge_intervals_for_instance_unfold.
  case_decide as Hguard; [done|].
  destruct (get_actions_for_instance conn instance_id) as [t [actions|e]] eqn:E;
    [|done].
  cbn. intros Hivs. split; [lia|].
  assert (outcome (get_actions_for_instance conn instance_id) = Ok actions)
    as Hact by by rewrite E.
  destruct (get_actions_for_instance_relevant _ _ _ Hact) as [Hrel _].
  destruct (decide (filter (λ a, a_time a < end_) actions = [])) as [Hnil|Hne].
  { by rewrite intervals_from_actions_empty in Hivs. }
  destruct (intervals_from_actions_shape actions start end_ Hrel Hne)
    as (st & _ & Hst & Hshape).
  exists actions, st. repeat split; try done. congruence.
Qed.

Lemma get_actions_for_instance_raise conn instance_id e :
  outcome (get_actions_for_instance conn instance_id) = Raise e →
  e = IndexError "list index out of range"
  ∧ relevant_actions (server_actions conn instance_id) = [].
Proof.
  rewrite get_actions_for_instance_unfold.
  destruct (sort_by_time _) as [|first rest] eqn:E.
  - cbn. intros [= <-]. split; [done|]. by apply sort_by_time_nil.
  - by case_decide.
Qed.

(** After a successful fetch the reconstructor either raises the
    empty-history exception or returns; which one is decided by the actions
    before [end_]. *)
Lemma get_charge_intervals_for_instance_fetched conn instance_id start end_
  actions :
  start ≤ end_ →
  outcome (get_actions_for_instance conn instance_id) = Ok actions →
  outcome (get_charge_intervals_for_instance conn instance_id start end_)
  = intervals_from_actions actions start end_.
Proof.
  intros Hse. rewrite get_charge_intervals_for_instance_unfold.
  rewrite decide_False by lia.
  destruct (get_actions_for_instance conn instance_id) as [t [l|e]]; cbn;
    congruence.
Qed.

(** * The claims *)

(** ** C1: coverage of the window *)

(** C1 as stated does not hold.  When the provider reports a creation time
    later than the earliest relevant action, the synthesized create is put in
    front of an earlier action, and the interval between them runs backwards:
    here the returned sequence is [0,5) deleted, [5,3) active, [3,10)
    suspended. *)
Lemma C1_backwards_interval :
  ∃ ivs,
    outcome (get_charge_intervals_for_instance
               (conn_of [{| ra_action := "pause"; ra_start_time := 3 |}]
                  5 "m3.small" 1) "i" 0 10) = Ok ivs
    ∧ 0 ≤ 10
    ∧ ¬ covers_window 0 10 ivs.
Proof.
  eexists. split; [vm_compute; reflexivity|]. split; [lia|].
  intros (_ & _ & _ & Hord).
  apply Forall_cons in Hord as [_ Hord].
  apply Forall_cons in Hord as [Hord _]. cbn in Hord. lia.
Qed.

(** C1, amended.  Whenever [get_charge_intervals_for_instance] returns
    normally, the window is not inverted, the first interval starts at
    [start], the last one ends at [end_] and adjacent intervals share their
    boundary; if moreover the normalized action sequence is in ascending
    timestamp order, every interval has [start <= end], so the sequence
    covers the window without gaps or overlaps. *)
Theorem C1_coverage conn instance_id start end_ actions ivs :
  outcome (get_actions_for_instance conn instance_id) = Ok actions →
  outcome (get_charge_intervals_for_instance conn instance_id start end_)
  = Ok ivs →
  start ≤ end_
  ∧ i_start <$> head ivs = Some start
  ∧ i_end <$> last ivs = Some end_
  ∧ adjacent_meet ivs
  ∧ (ascending actions → well_ordered ivs ∧ covers_window start end_ ivs).
Proof.
  intros Hact Hivs.
  destruct (get_charge_intervals_for_instance_ok _ _ _ _ _ Hivs)
    as (Hse & actions' & st & Hact' & _ & _ & ->).
  assert (actions' = actions) as -> by congruence.
  pose proof (spec_intervals_chained start end_ st
    (filter (λ a, start ≤ a_time a)
       (filter (λ a, a_time a < end_) actions))) as Hch.
  pose proof (chained_head _ _ _ Hch) as Hhead.
  pose proof (chained_last _ _ _ Hch) as Hlast.
  pose proof (chained_adjacent _ _ _ Hch) as Hadj.
  repeat (split; [done|]).
  intros Hasc.
  assert (well_ordered (spec_intervals start end_ st
    (filter (λ a, start ≤ a_time a)
       (filter (λ a, a_time a < end_) actions)))) as Hord.
  { apply spec_intervals_well_ordered; [done|..].
    - by do 2 apply ascending_filter.
    - apply filter_holds.
    - apply Forall_filter_keep, filter_holds. }
  by repeat split.
Qed.

Lemma C1_coverage_witness :
  covers_window 2 8
    [ {| i_start := 2; i_end := 5; i_state := "active" |};
      {| i_start := 5; i_end := 8; i_state := "stopped" |} ].
Proof.
  refine (proj2 (proj2 (proj2 (proj2 (proj2
    (C1_coverage
       (conn_of [ {| ra_action := "create"; ra_start_time := 0 |};
                  {| ra_action := "stop"; ra_start_time := 5 |} ]
          0 "m3.small" 1) "i" 2 8
       [ {| a_action := "create"; a_time := 0 |};
         {| a_action := "stop"; a_time := 5 |} ]
       _ _ _)))) _)).
  - vm_compute. reflexivity.
  - vm_compute. reflexivity.
  - repeat constructor; unfold by_time; simpl; lia.
Defined.

(** ** C10: the states of reconstructed intervals *)

(** C10.  Every interval that [get_charge_intervals_for_instance] returns
    carries one of the states active, deleted, suspended, shelved_offloaded,
    stopped.  The states paused, not_yet_created, error and resized, although
    keys of [STATE_CHARGE_MULTIPLIERS], are never produced (pause maps to
    suspended), and the multiplier lookup of the charge calculator succeeds
    on every returned interval. *)
Theorem C10_produced_states conn instance_id start end_ ivs :
  outcome (get_charge_intervals_for_instance conn instance_id start end_)
  = Ok ivs →
  Forall (λ iv, i_state iv ∈ PRODUCED_STATES) ivs
  ∧ Forall (λ iv, i_state iv ∉
              ["paused"; "not_yet_created"; "error"; "resized"]) ivs
  ∧ Forall (λ s, is_Some (STATE_CHARGE_MULTIPLIERS !! s))
      ["paused"; "not_yet_created"; "error"; "resized"]
  ∧ ACTION_TO_STATE_LOOKUP !! "pause" = Some "suspended"
  ∧ Forall (λ iv, ∃ m, py_getitem STATE_CHARGE_MULTIPLIERS (i_state iv) = Ok m)
      ivs.
Proof.
  intros Hivs.
  destruct (get_charge_intervals_for_instance_ok _ _ _ _ _ Hivs)
    as (_ & actions & st & _ & Hrel & Hst & ->).
  assert (Forall (λ iv, i_state iv ∈ PRODUCED_STATES)
            (spec_intervals start end_ st
               (filter (λ a, start ≤ a_time a)
                  (filter (λ a, a_time a < end_) actions)))) as Hprod.
  { constructor; [done|].
    by apply action_intervals_states; do 2 apply Forall_filter_keep. }
  split; [done|]. split; [|split; [|split; [done|]]].
  - eapply Forall_impl; [exact Hprod|]. cbn. intros iv Hiv.
    by apply produced_state_not_unused.
  - repeat constructor; by eexists.
  - eapply Forall_impl; [exact Hprod|]. cbn. intros iv Hiv.
    destruct (produced_state_charged _ Hiv) as [m Hm].
    exists m. by apply py_getitem_ok.
Qed.

Lemma C10_produced_states_witness :
  Forall (λ iv, i_state iv ∈ PRODUCED_STATES)
    [ {| i_start := 1; i_end := 3; i_state := "active" |};
      {| i_start := 3; i_end := 8; i_state := "suspended" |} ].
Proof.
  refine (proj1
    (C10_produced_states
       (conn_of [ {| ra_action := "pause"; ra_start_time := 3 |};
                  {| ra_action := "attach_volume"; ra_start_time := 4 |} ]
          0 "m3.small" 1) "i" 1 8 _ _)).
  vm_compute. reflexivity.
Defined.

(** ** C8: the empty-history exception of the reconstructor *)

(** C8.  For a valid window and a normalized action sequence, the
    reconstructor raises the empty-history exception exactly when no action
    has a timestamp before [end_]; otherwise it raises nothing and returns
    intervals. *)
Theorem C8_empty_history conn instance_id start end_ actions :
  start ≤ end_ →
  outcome (get_actions_for_instance conn instance_id) = Ok actions →
  (filter (λ a, a_time a < end_) actions = [] →
   outcome (get_charge_intervals_for_instance conn instance_id start end_)
   = Raise EmptyHistoryError)
  ∧ (filter (λ a, a_time a < end_) actions ≠ [] →
     outcome (get_charge_intervals_for_instance conn instance_id start end_)
     ≠ Raise EmptyHistoryError
     ∧ ∃ ivs,
         outcome (get_charge_intervals_for_instance conn instance_id start end_)
         = Ok ivs).
Proof.
  intros Hse Hact.
  rewrite (get_charge_intervals_for_instance_fetched _ _ _ _ _ Hse Hact).
  destruct (get_actions_for_instance_relevant _ _ _ Hact) as [Hrel _].
  split.
  - apply intervals_from_actions_empty.
  - intros Hne.
    destruct (intervals_from_actions_shape actions start end_ Hrel Hne)
      as (st & _ & _ & ->).
    split; [done|]. by eexists.
Qed.

Lemma C8_empty_history_witness :
  outcome (get_charge_intervals_for_instance
             (conn_of [ {| ra_action := "create"; ra_start_time := 10 |};
                        {| ra_action := "stop"; ra_start_time := 12 |} ]
                10 "m3.small" 1) "i" 1 3)
  = Raise EmptyHistoryError.
Proof.
  refine (proj1
    (C8_empty_history _ "i" 1 3
       [ {| a_action := "create"; a_time := 10 |};
         {| a_action := "stop"; a_time := 12 |} ] _ _) _).
  - lia.
  - vm_compute. reflexivity.
  - vm_compute. reflexivity.
Defined.

(** ** C7: the inverted window *)

(** C7.  The reconstructor raises a [ValueError] only for a window whose end
    is before its start, and for every such window it raises
    [InvalidRangeError] at once: no provider call is made and no interval
    list is returned. *)
Theorem C7_invalid_range conn instance_id start end_ :
  (outcome (get_charge_intervals_for_instance conn instance_id start end_)
   = Raise InvalidRangeError ↔ end_ < start)
  ∧ (∀ msg,
       outcome (get_charge_intervals_for_instance conn instance_id start end_)
       = Raise (ValueError msg) → end_ < start)
  ∧ (end_ < start →
     calls (get_charge_intervals_for_instance conn instance_id start end_) = []
     ∧ ∀ ivs,
         outcome (get_charge_intervals_for_instance conn instance_id start end_)
         ≠ Ok ivs).
Proof.
  assert (∀ msg,
    outcome (get_charge_intervals_for_instance conn instance_id start end_)
    = Raise (ValueError msg) → end_ < start) as Honly.
  { intros msg. rewrite get_charge_intervals_for_instance_unfold.
    case_decide as Hguard; [done|].
    destruct (get_actions_for_instance conn instance_id) as [t [actions|e]] eqn:E.
    - assert (outcome (get_actions_for_instance conn instance_id) = Ok actions)
        as Hact by by rewrite E.
      destruct (get_actions_for_instance_relevant _ _ _ Hact) as [Hrel _].
      cbn.
      destruct (decide (filter (λ a, a_time a < end_) actions = []))
        as [Hnil|Hne].
      + by rewrite intervals_from_actions_empty.
      + by destruct (intervals_from_actions_shape actions start end_ Hrel Hne)
          as (st & _ & _ & ->).
    - assert (outcome (get_actions_for_instance conn instance_id) = Raise e)
        as Hact by by rewrite E.
      apply get_actions_for_instance_raise in Hact as [-> _]. by cbn. }
  assert (end_ < start →
    get_charge_intervals_for_instance conn instance_id start end_
    = ([], Raise InvalidRangeError)) as Hguard.
  { intros Hlt. rewrite get_charge_intervals_for_instance_unfold.
    by rewrite decide_True. }
  split; [|split; [done|]].
  - split; [apply Honly|]. intros Hlt. by rewrite Hguard.
  - intros Hlt. by rewrite Hguard.
Qed.

Lemma C7_invalid_range_witness :
  calls (get_charge_intervals_for_instance
           (conn_of [ {| ra_action := "create"; ra_start_time := 0 |} ]
              0 "m3.small" 1) "i" 10 5) = []
  ∧ outcome (get_charge_intervals_for_instance
               (conn_of [ {| ra_action := "create"; ra_start_time := 0 |} ]
                  0 "m3.small" 1) "i" 10 5)
    = Raise InvalidRangeError.
Proof.
  split.
  - refine (proj1 (proj2 (proj2 (C7_invalid_range _ "i" 10 5)) _)). lia.
  - refine (proj2 (proj1 (C7_invalid_range _ "i" 10 5)) _). lia.
Defined.

(** ** C4: a window entirely before the creation *)

(** C4 as stated does not hold: with the single action create at 10, the
    window [5, 8) does not yield the interval [5, 8) deleted. *)
Lemma C4_no_deleted_interval :
  outcome (get_charge_intervals_for_instance
             (conn_of [ {| ra_action := "create"; ra_start_time := 10 |} ]
                10 "m3.small" 1) "i" 5 8)
  ≠ Ok [ {| i_start := 5; i_end := 8; i_state := "deleted" |} ].
Proof. vm_compute. discriminate. Qed.

(** C4, amended.  When the action sequence consists solely of a create at
    10, reconstruction over the window [5, 8) returns no interval: the create
    is dropped because its timestamp is not before the end of the window, and
    the empty-history exception is raised. *)
Theorem C4_window_before_creation conn instance_id :
  outcome (get_actions_for_instance conn instance_id)
  = Ok [ {| a_action := "create"; a_time := 10 |} ] →
  outcome (get_charge_intervals_for_instance conn instance_id 5 8)
  = Raise EmptyHistoryError.
Proof.
  intros Hact.
  rewrite (get_charge_intervals_for_instance_fetched _ _ 5 8 _ ltac:(lia) Hact).
  reflexivity.
Qed.

Lemma C4_window_before_creation_witness :
  outcome (get_charge_intervals_for_instance
             (conn_of [ {| ra_action := "create"; ra_start_time := 10 |} ]
                10 "m3.small" 1) "i" 5 8)
  = Raise EmptyHistoryError.
Proof.
  apply C4_window_before_creation. vm_compute. reflexivity.
Defined.

(** ** C3: the starting state *)

(** C3.  On a non-empty ascending sequence of relevant actions, the first
    action is the earliest one; if [start] is at or before its timestamp the
    starting state is deleted, otherwise it is the [ACTION_TO_STATE_LOOKUP]
    entry of the last action in the sequence whose timestamp is at or before
    [start] (among actions of equal timestamp, the one that comes last). *)
Theorem C3_starting_state first rest start :
  ascending (first :: rest) →
  Forall relevant (first :: rest) →
  (∀ a, a ∈ first :: rest → a_time first ≤ a_time a)
  ∧ (start ≤ a_time first →
     determine_starting_state (first :: rest) start = Ok "deleted")
  ∧ (a_time first < start →
     ∃ a st,
       last (filter (λ a, a_time a ≤ start) (first :: rest)) = Some a
       ∧ ACTION_TO_STATE_LOOKUP !! a_action a = Some st
       ∧ determine_starting_state (first :: rest) start = Ok st).
Proof.
  intros Hasc Hrel.
  split; [intros a; by apply ascending_head_earliest|].
  rewrite determine_starting_state_ascending by done.
  split; intros Hstart.
  - by rewrite decide_True.
  - rewrite decide_False by lia.
    destruct (last (filter (λ a, a_time a ≤ start) (first :: rest)))
      as [a|] eqn:Elast.
    + exists a, (mapped_state a). split; [done|]. split; [|done].
      apply mapped_state_relevant.
      apply last_Some_elem_of, list_elem_of_filter in Elast as [_ Hin].
      rewrite Forall_forall in Hrel. by apply Hrel.
    + rewrite filter_cons_True, last_cons in Elast by lia.
      by destruct (last (filter _ rest)).
Qed.

Lemma C3_starting_state_witness :
  determine_starting_state
    [ {| a_action := "create"; a_time := 0 |};
      {| a_action := "stop"; a_time := 5 |};
      {| a_action := "start"; a_time := 5 |};
      {| a_action := "pause"; a_time := 9 |} ] 5
  = Ok "active".
Proof.
  destruct (C3_starting_state
              {| a_action := "create"; a_time := 0 |}
              [ {| a_action := "stop"; a_time := 5 |};
                {| a_action := "start"; a_time := 5 |};
                {| a_action := "pause"; a_time := 9 |} ] 5)
    as (_ & _ & Hlast).
  - repeat constructor; unfold by_time; simpl; lia.
  - repeat constructor; apply (bool_decide_unpack _); vm_compute; exact I.
  - destruct Hlast as (a & st & Ha & Hst & ->); [simpl; lia|].
    vm_compute in Ha. injection Ha as <-.
    vm_compute in Hst. by injection Hst as <-.
Defined.

(** ** C2: the shape of the reconstructed intervals *)

(** C2.  Let [actions] be ascending and relevant, and let [kept] be its
    actions with timestamp in [[start, end_)], with timestamps
    [t1 <= ... <= tn].  Given the starting state, lines 96-122 return
    [[start, end_)] alone when [kept] is empty, and otherwise [[start, t1)]
    in the starting state followed by one interval per kept action, from its
    timestamp to the next action's (to [end_] for the last), in the action's
    mapped state.  There is exactly one interval per kept action besides the
    leading one, so intervals of zero length are neither dropped nor merged;
    and this is what the reconstructor returns once the starting state is
    determined. *)
Theorem C2_interval_shape actions start end_ :
  ascending actions →
  Forall relevant actions →
  let visible := filter (λ a, a_time a < end_) actions in
  let kept := filter (λ a, start ≤ a_time a ∧ a_time a < end_) actions in
  ascending kept
  ∧ ∀ st,
      build_intervals visible start end_ st
      = Ok (spec_intervals start end_ st kept)
      ∧ (kept = [] →
         build_intervals visible start end_ st
         = Ok [{| i_start := start; i_end := end_; i_state := st |}])
      ∧ length (spec_intervals start end_ st kept) = S (length kept)
      ∧ (determine_starting_state visible start = Ok st →
         intervals_from_actions actions start end_
         = Ok (spec_intervals start end_ st kept)).
Proof.
  intros Hasc Hrel visible kept.
  assert (filter (λ a, start ≤ a_time a) visible = kept) as Hkept.
  { unfold visible, kept. apply list_filter_filter. }
  assert (Forall relevant visible) as Hvis by by apply Forall_filter_keep.
  split; [by apply ascending_filter|].
  intros st.
  assert (build_intervals visible start end_ st
          = Ok (spec_intervals start end_ st kept)) as Hbuild.
  { rewrite <- Hkept. by apply build_intervals_shape. }
  split; [done|]. split; [|split].
  - intros Hnil. by rewrite Hbuild, Hnil.
  - unfold spec_intervals. cbn [length]. f_equal.
    clear. induction kept as [|a rest IH]; cbn; [done|]. by rewrite IH.
  - intros Hst. unfold intervals_from_actions. cbv zeta. fold visible.
    destruct visible as [|a l] eqn:E; [done|].
    rewrite decide_False by done. rewrite Hst. exact Hbuild.
Qed.

Lemma C2_interval_shape_witness :
  intervals_from_actions
    [ {| a_action := "create"; a_time := 0 |};
      {| a_action := "stop"; a_time := 5 |} ] 2 8
  = Ok [ {| i_start := 2; i_end := 5; i_state := "active" |};
         {| i_start := 5; i_end := 8; i_state := "stopped" |} ].
Proof.
  refine (proj2 (proj2 (proj2 (proj2
    (C2_interval_shape
       [ {| a_action := "create"; a_time := 0 |};
         {| a_action := "stop"; a_time := 5 |} ] 2 8 _ _) "active"))) _).
  - repeat constructor; unfold by_time; simpl; lia.
  - repeat constructor; apply (bool_decide_unpack _); vm_compute; exact I.
  - vm_compute. reflexivity.
Defined.

(** ** C5: the normalizer *)

(** C5 as stated does not hold: with the single relevant action pause at 3
    and a reported creation time of 5, the normalizer returns create at 5
    followed by pause at 3, which is not in ascending order. *)
Lemma C5_late_fallback_unsorted :
  ∃ actions,
    outcome (get_actions_for_instance
               (conn_of [{| ra_action := "pause"; ra_start_time := 3 |}]
                  5 "m3.small" 1) "i") = Ok actions
    ∧ ¬ ascending actions.
Proof.
  eexists. split; [vm_compute; reflexivity|].
  intros Hasc. apply StronglySorted_inv in Hasc as [_ Hasc].
  apply Forall_cons in Hasc as [Hasc _]. unfold by_time in Hasc.
  cbn in Hasc. lia.
Qed.

(** C5, amended.  When at least one reported action is relevant, the
    normalizer keeps exactly the relevant actions, sorts them ascending by
    timestamp (actions of equal timestamp keep their order), and returns the
    sorted sequence, with a create carrying the fallback creation time put in
    front when the earliest action is not a create.  The returned sequence is
    in ascending order exactly when no create is synthesized or the fallback
    creation time is not later than the earliest kept action. *)
Theorem C5_normalizer conn instance_id :
  let raw := server_actions conn instance_id in
  let survivors := relevant_actions raw in
  let sorted := sort_by_time survivors in
  let create := synthesized_create conn instance_id in
  survivors ≠ [] →
  (∀ a, a ∈ survivors ↔ relevant a ∧ a ∈ parse_action <$> raw)
  ∧ sorted ≡ₚ survivors
  ∧ ascending sorted
  ∧ (∀ t, filter (λ a, a_time a = t) sorted
          = filter (λ a, a_time a = t) survivors)
  ∧ ∃ first,
      head sorted = Some first
      ∧ outcome (get_actions_for_instance conn instance_id)
        = Ok (if decide (a_action first = "create") then sorted
              else create :: sorted)
      ∧ (ascending (if decide (a_action first = "create") then sorted
                    else create :: sorted)
         ↔ a_action first = "create" ∨ a_time create ≤ a_time first).
Proof.
  intros raw survivors sorted create Hne.
  split; [intros a; apply list_elem_of_filter|].
  split; [apply sort_by_time_perm|].
  pose proof (sort_by_time_ascending survivors) as Hasc.
  split; [done|].
  split; [intros t; apply sort_by_time_stable|].
  rewrite get_actions_for_instance_unfold. subst sorted. fold raw survivors.
  destruct (sort_by_time survivors) as [|first rest] eqn:E.
  { destruct Hne. by apply sort_by_time_nil. }
  exists first. split; [done|]. case_decide as Hc.
  - split; [done|]. split; [by left|done].
  - split; [done|]. split.
    + intros Hall. right. apply StronglySorted_inv in Hall as [_ Hall].
      by apply Forall_cons in Hall as [? _].
    + intros [?|Hle]; [done|]. constructor; [done|].
      apply Forall_forall. intros a Ha.
      pose proof (ascending_head_earliest _ _ _ Hasc Ha).
      unfold by_time. lia.
Qed.

Lemma C5_normalizer_witness :
  outcome (get_actions_for_instance
             (conn_of [{| ra_action := "pause"; ra_start_time := 3 |}]
                0 "m3.small" 1) "i")
  = Ok [ {| a_action := "create"; a_time := 0 |};
         {| a_action := "pause"; a_time := 3 |} ].
Proof.
  destruct (C5_normalizer
              (conn_of [{| ra_action := "pause"; ra_start_time := 3 |}]
                 0 "m3.small" 1) "i")
    as (_ & _ & _ & _ & first & Hfirst & Hout & _).
  - vm_compute. discriminate.
  - vm_compute in Hfirst. injection Hfirst as <-. exact Hout.
Defined.

(** ** C9: the normalizer on an empty history *)

(** C9, what the code does there.  When no reported action is relevant, the
    normalizer fails at [actions[0]] (line 64) with an [IndexError], after the
    one call that fetched the actions; it does not raise the empty-history
    exception that C9 asks for and that the reconstructor raises for its own
    empty list (line 81). *)
Theorem C9_empty_history_index_error conn instance_id :
  relevant_actions (server_actions conn instance_id) = [] →
  outcome (get_actions_for_instance conn instance_id)
  = Raise (IndexError "list index out of range")
  ∧ outcome (get_actions_for_instance conn instance_id)
    ≠ Raise EmptyHistoryError
  ∧ calls (get_actions_for_instance conn instance_id)
    = [ServerActions instance_id].
Proof.
  intros Hnil. rewrite get_actions_for_instance_unfold, Hnil. by cbn.
Qed.

Lemma C9_empty_history_index_error_witness :
  outcome (get_actions_for_instance
             (conn_of [{| ra_action := "attach_volume"; ra_start_time := 1 |}]
                0 "m3.small" 1) "i")
  = Raise (IndexError "list index out of range").
Proof.
  refine (proj1 (C9_empty_history_index_error _ "i" _)).
  vm_compute. reflexivity.
Defined.

(** ** The charge over exact rationals *)



(** ** The charge in binary64 *)

#[local] Arguments Binary64.STATE_CHARGE_MULTIPLIERS : simpl never.
#[local] Arguments Binary64.FLAVOR_TYPE_CHARGE_MULTIPLIERS : simpl never.

Lemma returns_or_overflows_bind {A B} (P : A → Prop) (Q : B → Prop)
  (m : result A) (f : A → result B) :
  Binary64.returns_or_overflows P m →
  (∀ x, P x → Binary64.returns_or_overflows Q (f x)) →
  Binary64.returns_or_overflows Q (m ≫= f).
Proof. destruct m as [x|e]; cbn; [|done]. intros Hx Hf. by apply Hf. Qed.

Lemma returns_or_overflows_impl {A} (P Q : A → Prop) (m : result A) :
  Binary64.returns_or_overflows P m → (∀ x, P x → Q x) →
  Binary64.returns_or_overflows Q m.
Proof. destruct m as [x|e]; cbn; [|done]. intros Hx HPQ. by apply HPQ. Qed.

Lemma int_to_float_overflows z :
  Binary64.returns_or_overflows (λ _, True) (Binary64.int_to_float z).
Proof.
  unfold Binary64.int_to_float.
  by destruct (binary_normalize _ _ _ _ _).
Qed.

Lemma to_float_overflows x :
  Binary64.returns_or_overflows (λ _, True) (Binary64.to_float x).
Proof. destruct x; [apply int_to_float_overflows|done]. Qed.

Lemma int_true_divide_overflows a b :
  b ≠ 0 →
  Binary64.returns_or_overflows (λ _, True) (Binary64.int_true_divide a b).
Proof.
  intros Hb. unfold Binary64.int_true_divide.
  rewrite decide_False by done. case_decide; [done|].
  destruct (SFdiv_core_binary _ _ _ _ _ _) as [[mz ez] lz].
  by destruct (binary_round_aux _ _ _ _ _ _).
Qed.

(** A product or a sum with a float operand is a float. *)
Lemma mul_overflows x y :
  Binary64.returns_or_overflows
    (λ r, Binary64.is_float x ∨ Binary64.is_float y → Binary64.is_float r)
    (Binary64.mul x y).
Proof.
  destruct x as [a|f], y as [b|g]; cbn; [by intros [|]|..];
    repeat (match goal with
            | |- context [Binary64.int_to_float ?z] =>
                pose proof (int_to_float_overflows z);
                destruct (Binary64.int_to_float z)
            end; cbn); done.
Qed.

Lemma add_overflows x y :
  Binary64.returns_or_overflows
    (λ r, Binary64.is_float x ∨ Binary64.is_float y → Binary64.is_float r)
    (Binary64.add x y).
Proof.
  destruct x as [a|f], y as [b|g]; cbn; [by intros [|]|..];
    repeat (match goal with
            | |- context [Binary64.int_to_float ?z] =>
                pose proof (int_to_float_overflows z);
                destruct (Binary64.int_to_float z)
            end; cbn); done.
Qed.

(** Dividing by [10**6] or by [3600] gives a float and never a
    [ZeroDivisionError]. *)
Lemma total_seconds_overflows micro :
  Binary64.returns_or_overflows Binary64.is_float
    (Binary64.total_seconds micro).
Proof.
  unfold Binary64.total_seconds, Binary64.truediv.
  pose proof (int_true_divide_overflows micro 1000000 ltac:(done)).
  by destruct (Binary64.int_true_divide micro 1000000).
Qed.

Lemma truediv_3600_overflows x :
  Binary64.returns_or_overflows Binary64.is_float
    (Binary64.truediv x (Binary64.PyInt 3600)).
Proof.
  destruct x as [a|f]; unfold Binary64.truediv.
  - pose proof (int_true_divide_overflows a 3600 ltac:(done)).
    by destruct (Binary64.int_true_divide a 3600).
  - done.
Qed.

Lemma contribution_overflows n_vcpus fm iv :
  Binary64.returns_or_overflows Binary64.is_float
    (Binary64.contribution n_vcpus fm iv).
Proof.
  unfold Binary64.contribution, Binary64.duration_hours.
  eapply returns_or_overflows_bind.
  { eapply returns_or_overflows_bind; [apply total_seconds_overflows|].
    intros secs _. apply truediv_3600_overflows. }
  intros hours Hhours.
  eapply returns_or_overflows_bind; [apply mul_overflows|]. intros k _.
  eapply returns_or_overflows_bind; [apply mul_overflows|]. intros m _.
  eapply returns_or_overflows_impl; [apply mul_overflows|].
  intros r Hr. apply Hr. by left.
Qed.

Lemma contributions_overflows n_vcpus fm intervals :
  Binary64.returns_or_overflows
    (λ cs, Forall Binary64.is_float cs ∧ length cs = length intervals)
    (Binary64.contributions n_vcpus fm intervals).
Proof.
  induction intervals as [|iv rest IH]; [by cbn|].
  cbn [Binary64.contributions].
  eapply returns_or_overflows_bind; [apply contribution_overflows|].
  intros c Hc.
  eapply returns_or_overflows_bind; [exact IH|].
  intros cs [Hcs Hlen]. cbn. split; [by constructor|]. by rewrite Hlen.
Qed.

Lemma sum_from_overflows total cs :
  Forall Binary64.is_float cs →
  Binary64.returns_or_overflows
    (λ r, match cs with
          | [] => r = total
          | _ :: _ => Binary64.is_float r
          end)
    (Binary64.sum_from total cs).
Proof.
  intros Hcs. revert total.
  induction Hcs as [|c cs Hc _ IH]; intros total; [done|].
  cbn [Binary64.sum_from].
  eapply returns_or_overflows_bind; [apply add_overflows|].
  intros total' Htotal'. specialize (Htotal' (or_intror Hc)).
  eapply returns_or_overflows_impl; [apply IH|].
  intros r. destruct cs; [by intros ->|done].
Qed.

Lemma charge_step_contribution n_vcpus flavor_prefix fm total iv :
  Binary64.FLAVOR_TYPE_CHARGE_MULTIPLIERS !! flavor_prefix = Some fm →
  is_Some (Binary64.STATE_CHARGE_MULTIPLIERS !! i_state iv) →
  Binary64.charge_step n_vcpus flavor_prefix total iv
  = (c ← Binary64.contribution n_vcpus fm iv; Binary64.add total c).
Proof.
  intros Hfm [sm Hsm].
  unfold Binary64.charge_step, Binary64.contribution, Binary64.duration_hours,
    Binary64.total_seconds, Binary64.state_multiplier.
  rewrite (py_getitem_ok _ _ _ Hsm), (py_getitem_ok _ _ _ Hfm), Hsm.
  cbn [default from_option id mbind result_bind].
  destruct (Binary64.truediv (Binary64.PyInt _) _) as [secs|]; [|done].
  cbn [mbind result_bind].
  destruct (Binary64.truediv secs _) as [hours|]; [|done].
  cbn [mbind result_bind].
  destruct (Binary64.mul sm _) as [k|]; [|done]. cbn [mbind result_bind].
  by destruct (Binary64.mul k fm) as [m|].
Qed.

(** The loop adds the contributions from left to right; only a
    contribution can fail, an addition to a float cannot. *)
Lemma charge_loop_contributions n_vcpus flavor_prefix fm intervals total :
  Binary64.FLAVOR_TYPE_CHARGE_MULTIPLIERS !! flavor_prefix = Some fm →
  Forall (λ iv, is_Some (Binary64.STATE_CHARGE_MULTIPLIERS !! i_state iv))
    intervals →
  (∃ f, Binary64.to_float total = Ok f) →
  for_each (Binary64.charge_step n_vcpus flavor_prefix) intervals total
  = (cs ← Binary64.contributions n_vcpus fm intervals;
     Binary64.sum_from total cs).
Proof.
  intros Hfm Hstates. revert total.
  induction Hstates as [|iv rest Hiv _ IH]; intros total [f Hf]; [done|].
  cbn [for_each Binary64.contributions].
  rewrite (charge_step_contribution _ _ fm) by done.
  pose proof (contribution_overflows n_vcpus fm iv) as Hc.
  destruct (Binary64.contribution n_vcpus fm iv) as [c|]; [|done].
  destruct c as [?|x]; [done|].
  cbn [mbind result_bind].
  assert (Binary64.add total (Binary64.PyFloat x)
          = Ok (Binary64.PyFloat (SFadd Binary64.prec Binary64.emax f x)))
    as Hadd.
  { unfold Binary64.add, Binary64.to_float in *.
    destruct total; [by rewrite Hf|]. by injection Hf as ->. }
  rewrite Hadd. cbn [mbind result_bind]. rewrite IH by by eexists.
  destruct (Binary64.contributions n_vcpus fm rest) as [cs|]; [|done].
  cbn [mbind result_bind Binary64.sum_from]. by rewrite Hadd.
Qed.

(** ** C6: the total charge *)

(** C6 as stated does not hold of what the interpreter computes.  One
    second in state paused with 3 vcpus of family m3 is charged the float
    [5764607523034235 / 2^63]: this is not the claimed sum, 1/1600, which no
    float equals, and it is not the product [duration * 0.75 * 3 * 1] taken
    in floating point from left to right either, which is
    [5764607523034234 / 2^63]. *)
Lemma C6_rounded_charge :
  let iv := {| i_start := 0; i_end := 1000000; i_state := "paused" |} in
  let charged :=
    Binary64.PyFloat (S754_finite false 5764607523034235 (-63)) in
  Binary64.total_charge_of_intervals [iv] 3 "m3" = Ok charged
  ∧ (∃ q, Binary64.exact_value charged = Some q
          ∧ ¬ (q == spec_total_charge [iv] 3 1)%Q)
  ∧ (spec_total_charge [iv] 3 1 == 1 # 1600)%Q
  ∧ Binary64.contribution_left_to_right 3 (Binary64.PyInt 1) iv
    = Ok (Binary64.PyFloat (S754_finite false 5764607523034234 (-63))).
Proof.
  intros iv charged. split; [vm_compute; reflexivity|].
  split; [|split; vm_compute; reflexivity].
  eexists. split; [vm_compute; reflexivity|]. vm_compute. discriminate.
Qed.

(** C6, amended.  For a flavor family and interval states present in the
    tables, the total charge is the sum over the intervals of
    (end - start in seconds / 3600) * (state multiplier * vcpus * flavor
    multiplier) as binary64 floating point evaluates it: the two divisions
    are true divisions rounded to the nearest float (nothing is truncated to
    an integer), the multiplier is exact as long as it is an integer, each
    product and each sum is rounded, and the contributions are added from
    left to right starting from the integer 0.  The only failure is an
    [OverflowError], and the result is a float unless there is no interval,
    when it is the integer 0. *)
Theorem C6_binary64_charge intervals n_vcpus flavor_prefix fm :
  Binary64.FLAVOR_TYPE_CHARGE_MULTIPLIERS !! flavor_prefix = Some fm →
  Forall (λ iv, is_Some (Binary64.STATE_CHARGE_MULTIPLIERS !! i_state iv))
    intervals →
  Binary64.total_charge_of_intervals intervals n_vcpus flavor_prefix
  = (cs ← Binary64.contributions n_vcpus fm intervals;
     Binary64.sum_from (Binary64.PyInt 0) cs)
  ∧ Binary64.returns_or_overflows
      (λ total, match intervals with
                | [] => total = Binary64.PyInt 0
                | _ :: _ => Binary64.is_float total
                end)
      (Binary64.total_charge_of_intervals intervals n_vcpus flavor_prefix).
Proof.
  intros Hfm Hstates.
  assert (∃ f, Binary64.to_float (Binary64.PyInt 0) = Ok f) as Hzero
    by (eexists; vm_compute; reflexivity).
  unfold Binary64.total_charge_of_intervals.
  rewrite (charge_loop_contributions _ _ fm) by done.
  split; [done|].
  eapply returns_or_overflows_bind; [apply contributions_overflows|].
  intros cs [Hcs Hlen].
  eapply returns_or_overflows_impl; [by apply sum_from_overflows|].
  intros r. destruct cs, intervals; done.
Qed.

(** The specification's example: two hours active with 4 vcpus in a family
    of multiplier 2 are charged exactly 16.0. *)
Lemma C6_binary64_charge_witness :
  Binary64.total_charge_of_intervals
    [ {| i_start := 0; i_end := 2 * hour; i_state := "active" |} ] 4 "g3"
  = Ok (Binary64.PyFloat (S754_finite false 4503599627370496 (-48)))
  ∧ ∃ q, Binary64.exact_value
           (Binary64.PyFloat (S754_finite false 4503599627370496 (-48)))
         = Some q
         ∧ (q == 16)%Q.
Proof.
  split; [|eexists; split; [vm_compute; reflexivity|vm_compute; reflexivity]].
  rewrite (proj1 (C6_binary64_charge
                    [ {| i_start := 0; i_end := 2 * hour;
                         i_state := "active" |} ]
                    4 "g3" (Binary64.PyInt 2) eq_refl
                    ltac:(repeat constructor; by eexists))).
  vm_compute. reflexivity.
Defined.

(** Nothing is truncated: half an hour is [0.5] hours, and 1800 seconds
    stopped with one vcpu of family m3 are charged exactly [0.25]. *)
Example binary64_half_hour :
  Binary64.duration_hours
    {| i_start := 5; i_end := 5 + 1800 * 1000000; i_state := "stopped" |}
  = Ok (Binary64.PyFloat Binary64.float_0_5)
  ∧ Binary64.total_charge_of_intervals
      [ {| i_start := 5; i_end := 5 + 1800 * 1000000; i_state := "stopped" |} ]
      1 "m3"
    = Ok (Binary64.PyFloat (S754_finite false 4503599627370496 (-54))).
Proof. split; vm_compute; reflexivity. Qed.

(** The arithmetic on known cases.  [1 / 10] and [0.1 + 0.2], which is
    [0.30000000000000004] and not the float of [3 / 10]: *)
Example binary64_one_tenth :
  Binary64.truediv (Binary64.PyInt 1) (Binary64.PyInt 10)
  = Ok (Binary64.PyFloat (S754_finite false 7205759403792794 (-56)))
  ∧ Binary64.add
      (Binary64.PyFloat (S754_finite false 7205759403792794 (-56)))
      (Binary64.PyFloat (S754_finite false 7205759403792794 (-55)))
    = Ok (Binary64.PyFloat (S754_finite false 5404319552844596 (-54)))
  ∧ Binary64.truediv (Binary64.PyInt 3) (Binary64.PyInt 10)
    = Ok (Binary64.PyFloat (S754_finite false 5404319552844595 (-54))).
Proof. repeat split; vm_compute; reflexivity. Qed.

(** Ninety seconds and three minutes active with one vcpu of family m3 are
    charged [0.025] and [0.05]; their total is [0.07500000000000001], one
    unit in the last place above the float of [75 / 1000]. *)
Example binary64_rounded_total :
  Binary64.total_charge_of_intervals
    [ {| i_start := 0; i_end := 90 * 1000000; i_state := "active" |};
      {| i_start := 90 * 1000000; i_end := 270 * 1000000;
         i_state := "active" |} ] 1 "m3"
  = Ok (Binary64.PyFloat (S754_finite false 5404319552844596 (-56)))
  ∧ Binary64.truediv (Binary64.PyInt 75) (Binary64.PyInt 1000)
    = Ok (Binary64.PyFloat (S754_finite false 5404319552844595 (-56))).
Proof. split; vm_compute; reflexivity. Qed.

(** A number of vcpus beyond the floats: the product with the float [0.75]
    raises, the product with the integer [1] does not until it meets the
    duration. *)
Example binary64_vcpus_overflow :
  Binary64.mul (Binary64.PyFloat Binary64.float_0_75)
    (Binary64.PyInt (2 ^ 1024))
  = Raise (OverflowError "int too large to convert to float")
  ∧ Binary64.mul (Binary64.PyInt 1) (Binary64.PyInt (2 ^ 1024))
    = Ok (Binary64.PyInt (2 ^ 1024))
  ∧ Binary64.total_charge_of_intervals
      [ {| i_start := 0; i_end := hour; i_state := "active" |} ]
      (2 ^ 1024) "m3"
    = Raise (OverflowError "int too large to convert to float")
  ∧ Binary64.total_charge_of_intervals
      [ {| i_start := 0; i_end := hour; i_state := "active" |} ]
      (2 ^ 1024) "c3"
    = Raise (KeyError "c3").
Proof. repeat split; vm_compute; reflexivity. Qed.

(** ** The reconstructor on a well-ordered history *)

(** Putting the pieces together: for a valid window, an ascending normalized
    sequence and at least one action before [end_], the reconstructor returns
    the specified intervals, led by the specified starting state. *)
Lemma get_charge_intervals_for_instance_spec conn instance_id start end_
  actions :
  start ≤ end_ →
  outcome (get_actions_for_instance conn instance_id) = Ok actions →
  ascending actions →
  filter (λ a, a_time a < end_) actions ≠ [] →
  ∃ st,
    spec_starting_state (filter (λ a, a_time a < end_) actions) start = Some st
    ∧ outcome (get_charge_intervals_for_instance conn instance_id start end_)
      = Ok (spec_intervals start end_ st
              (filter (λ a, start ≤ a_time a ∧ a_time a < end_) actions)).
Proof.
  intros Hse Hact Hasc Hne.
  rewrite (get_charge_intervals_for_instance_fetched _ _ _ _ _ Hse Hact).
  destruct (get_actions_for_instance_relevant _ _ _ Hact) as [Hrel _].
  destruct (determine_starting_state_spec
              (filter (λ a, a_time a < end_) actions) start)
    as (st & Hspec & Hst); [done|by apply ascending_filter|
                            by apply Forall_filter_keep|].
  destruct (intervals_from_actions_shape actions start end_ Hrel Hne)
    as (st' & Hst' & _ & ->).
  assert (st' = st) as -> by congruence.
  exists st. split; [done|]. by rewrite list_filter_filter.
Qed.

(** ** The charge calculator, end to end *)

(** An instance created at 0 and never touched again, billed over its first
    two hours with 4 vcpus of flavor g3.large: one call for the actions, one
    for the server, and a charge of 16. *)
Example get_total_charge_for_instance_two_hours :
  ∃ total,
    get_total_charge_for_instance
      (conn_of [ {| ra_action := "create"; ra_start_time := 0 |} ]
         0 "g3.large" 4) "i" 0 (2 * hour)
    = ([ServerActions "i"; GetServer "i"], Ok total)
    ∧ (total == 16)%Q.
Proof. eexists. split; [vm_compute; reflexivity|]. reflexivity. Qed.

(** Half an hour is half an hour: 1800 seconds stopped (multiplier 1/2) with
    one vcpu of family m3 cost 1/4. *)
Example get_total_charge_for_instance_half_hour :
  ∃ total,
    outcome (get_total_charge_for_instance
               (conn_of [ {| ra_action := "create"; ra_start_time := 0 |};
                          {| ra_action := "stop"; ra_start_time := 5 |} ]
                  0 "m3.small" 1) "i" 5 (5 + 1800 * 1000000))
    = Ok total
    ∧ (total == 1 # 4)%Q.
Proof. eexists. split; [vm_compute; reflexivity|]. reflexivity. Qed.

(** A flavor family outside the table, and a flavor name without a dot. *)
Example get_total_charge_for_instance_unknown_family :
  outcome (get_total_charge_for_instance
             (conn_of [ {| ra_action := "create"; ra_start_time := 0 |} ]
                0 "c3.large" 4) "i" 0 hour)
  = Raise (KeyError "c3").
Proof. vm_compute. reflexivity. Qed.

Example get_total_charge_for_instance_no_dot :
  outcome (get_total_charge_for_instance
             (conn_of [ {| ra_action := "create"; ra_start_time := 0 |} ]
                0 "large" 4) "i" 0 hour)
  = Raise (ValueError "substring not found").
Proof. vm_compute. reflexivity. Qed.

(** * Further properties of the three functions *)

(** ** The flavor family of a flavor name (line 130) *)

Lemma index_dot_cons c s :
  String.index 0 "." (String c s)
  = if decide (c = "."%char) then Some 0%nat
    else S <$> String.index 0 "." s.
Proof.
  change (String.index 0 "." (String c s))
    with (if String.prefix "." (String c s) then Some 0%nat
          else match String.index 0 "." s with
               | Some n => Some (S n)
               | None => None
               end).
  change (String.prefix "." (String c s))
    with (match Ascii.ascii_dec "." c with
          | left _ => String.prefix "" s
          | right _ => false
          end).
  destruct (Ascii.ascii_dec "." c) as [<-|Hne].
  - rewrite decide_True by done. by destruct s.
  - rewrite decide_False by done. by destruct (String.index 0 "." s).
Qed.

Lemma index_dot_dotless s : String.index 0 "." s = None ↔ dotless s.
Proof.
  induction s as [|c s IH]; [done|].
  rewrite index_dot_cons. cbn [dotless]. case_decide as Hc.
  - split; [done|]. by intros [? _].
  - rewrite <- IH. destruct (String.index 0 "." s) as [k|]; cbn.
    + split; [done|]. by intros [_ ?].
    + by split.
Qed.

Lemma index_dot_split s n :
  String.index 0 "." s = Some n →
  dotless (String.substring 0 n s)
  ∧ ∃ r, s = String.substring 0 n s +:+ String "." r.
Proof.
  revert n. induction s as [|c s IH]; intros n; [done|].
  rewrite index_dot_cons. case_decide as Hc.
  - intros [= <-]. subst c. split; [done|]. by exists s.
  - destruct (String.index 0 "." s) as [k|] eqn:E; [|done].
    cbn. intros [= <-]. destruct (IH k eq_refl) as (Hd & r & Hr).
    split; [by cbn|]. exists r.
    change (String c s = String c (String.substring 0 k s +:+ String "." r)).
    by f_equal.
Qed.

Lemma index_dot_app p r :
  dotless p →
  String.index 0 "." (p +:+ String "." r) = Some (String.length p)
  ∧ String.substring 0 (String.length p) (p +:+ String "." r) = p.
Proof.
  induction p as [|c p IH]; intros Hd.
  - change ("" +:+ String "." r) with (String "." r).
    split; [by rewrite index_dot_cons, decide_True|done].
  - destruct Hd as [Hc Hd]. destruct (IH Hd) as [Hi Hs].
    change (String c p +:+ String "." r) with (String c (p +:+ String "." r)).
    rewrite index_dot_cons, decide_False, Hi by done.
    split; [done|]. cbn [String.length String.substring]. by rewrite Hs.
Qed.

(** X1.  The flavor family is the part of the flavor name before its first
    dot: [flavor_prefix_of] returns [p] exactly when [p] has no dot and the
    name is [p], a dot, and anything; it raises [ValueError] exactly when the
    name has no dot at all. *)
Theorem X1_flavor_prefix name :
  (∀ p, flavor_prefix_of name = Ok p
        ↔ dotless p ∧ ∃ r, name = p +:+ String "." r)
  ∧ (∀ e, flavor_prefix_of name = Raise e
          ↔ dotless name ∧ e = ValueError "substring not found").
Proof.
  unfold flavor_prefix_of. split.
  - intros p. split.
    + destruct (String.index 0 "." name) as [n|] eqn:E; [|done].
      intros [= <-]. by apply index_dot_split.
    + intros (Hd & r & ->). destruct (index_dot_app p r Hd) as [-> ->]. done.
  - intros e. destruct (String.index 0 "." name) as [n|] eqn:E.
    + split; [done|]. intros [Hd _]. apply index_dot_dotless in Hd. congruence.
    + apply index_dot_dotless in E. split; [by intros [= <-]|].
      by intros [_ ->].
Qed.

Lemma X1_flavor_prefix_witness : flavor_prefix_of "g3p.xlarge.v2" = Ok "g3p".
Proof.
  apply (proj1 (X1_flavor_prefix "g3p.xlarge.v2")).
  split; [cbn; by repeat split|]. by exists "xlarge.v2".
Defined.

(** ** What the normalizer returns (lines 54-67) *)

(** X2.  Whatever the normalizer returns is a non-empty sequence of relevant
    actions whose first element is a create, one element per relevant
    reported action plus the synthesized create if there is one; the server
    record is fetched exactly when a create is synthesized. *)
Theorem X2_normalizer_result conn instance_id actions :
  outcome (get_actions_for_instance conn instance_id) = Ok actions →
  Forall relevant actions
  ∧ (∃ first rest, actions = first :: rest ∧ a_action first = "create")
  ∧ ((calls (get_actions_for_instance conn instance_id)
      = [ServerActions instance_id]
      ∧ actions ≡ₚ relevant_actions (server_actions conn instance_id))
     ∨ (calls (get_actions_for_instance conn instance_id)
        = [ServerActions instance_id; GetServer instance_id]
        ∧ actions ≡ₚ synthesized_create conn instance_id
                      :: relevant_actions (server_actions conn instance_id))).
Proof.
  intros Hact.
  destruct (get_actions_for_instance_relevant _ _ _ Hact) as [Hrel Hhead].
  split; [done|]. split; [done|].
  revert Hact. rewrite get_actions_for_instance_unfold.
  pose proof (sort_by_time_perm
    (relevant_actions (server_actions conn instance_id))) as Hperm.
  destruct (sort_by_time _) as [|first rest]; [done|].
  case_decide; cbn; intros [= <-]; [left|right]; split; try done.
  by constructor.
Qed.

Lemma X2_normalizer_result_witness :
  Forall relevant
    [ {| a_action := "create"; a_time := 0 |};
      {| a_action := "pause"; a_time := 3 |} ].
Proof.
  refine (proj1 (X2_normalizer_result
    (conn_of [ {| ra_action := "pause"; ra_start_time := 3 |};
               {| ra_action := "migrate"; ra_start_time := 2 |} ]
       0 "m3.small" 1) "i" _ _)).
  vm_compute. reflexivity.
Defined.

(** ** The outcomes of the reconstructor (lines 71-122) *)

(** X3.  The reconstructor fails in three ways only: the inverted window,
    the [IndexError] of the normalizer on a history without relevant action,
    passed on unchanged, and the empty-history exception.  It never raises a
    [KeyError]: every action kind it looks up is a key of
    [ACTION_TO_STATE_LOOKUP].  For a window that is not inverted it makes
    exactly the provider calls of the normalizer. *)
Theorem X3_reconstructor_outcomes conn instance_id start end_ :
  (∀ e,
     outcome (get_charge_intervals_for_instance conn instance_id start end_)
     = Raise e →
     e = InvalidRangeError ∧ end_ < start
     ∨ e = IndexError "list index out of range"
       ∧ relevant_actions (server_actions conn instance_id) = []
     ∨ e = EmptyHistoryError)
  ∧ (∀ key,
       outcome (get_charge_intervals_for_instance conn instance_id start end_)
       ≠ Raise (KeyError key))
  ∧ (start ≤ end_ →
     calls (get_charge_intervals_for_instance conn instance_id start end_)
     = calls (get_actions_for_instance conn instance_id)
     ∧ ∀ e,
         outcome (get_actions_for_instance conn instance_id) = Raise e →
         outcome (get_charge_intervals_for_instance conn instance_id start end_)
         = Raise e).
Proof.
  assert (∀ e,
    outcome (get_charge_intervals_for_instance conn instance_id start end_)
    = Raise e →
    e = InvalidRangeError ∧ end_ < start
    ∨ e = IndexError "list index out of range"
      ∧ relevant_actions (server_actions conn instance_id) = []
    ∨ e = EmptyHistoryError) as Hcases.
  { intros e. rewrite get_charge_intervals_for_instance_unfold.
    case_decide as Hguard; [intros [= <-]; by left|].
    destruct (get_actions_for_instance conn instance_id) as [t [actions|e']] eqn:E.
    - assert (outcome (get_actions_for_instance conn instance_id) = Ok actions)
        as Hact by by rewrite E.
      destruct (get_actions_for_instance_relevant _ _ _ Hact) as [Hrel _].
      cbn.
      destruct (decide (filter (λ a, a_time a < end_) actions = []))
        as [Hnil|Hne].
      + rewrite intervals_from_actions_empty by done. intros [= <-]. auto.
      + by destruct (intervals_from_actions_shape actions start end_ Hrel Hne)
          as (st & _ & _ & ->).
    - assert (outcome (get_actions_for_instance conn instance_id) = Raise e')
        as Hact by by rewrite E.
      apply get_actions_for_instance_raise in Hact as [-> Hnil].
      cbn. intros [= <-]. auto. }
  split; [done|]. split.
  - intros key Hkey. by destruct (Hcases _ Hkey) as [[? _]|[[? _]|?]].
  - intros Hse. rewrite get_charge_intervals_for_instance_unfold.
    rewrite decide_False by lia.
    destruct (get_actions_for_instance conn instance_id) as [t [actions|e']];
      cbn; [done|]. split; [done|]. by intros e [= <-].
Qed.

Lemma X3_reconstructor_outcomes_witness :
  calls (get_charge_intervals_for_instance
           (conn_of [ {| ra_action := "stop"; ra_start_time := 4 |} ]
              0 "m3.small" 1) "i" 1 9)
  = [ServerActions "i"; GetServer "i"].
Proof.
  refine (eq_trans (proj1 (proj2 (proj2 (X3_reconstructor_outcomes
    (conn_of [ {| ra_action := "stop"; ra_start_time := 4 |} ]
       0 "m3.small" 1) "i" 1 9)) _)) _).
  - lia.
  - vm_compute. reflexivity.
Defined.

(** ** The outcomes of the charge calculator (lines 126-140) *)

Lemma flavor_prefix_of_app p r :
  dotless p → flavor_prefix_of (p +:+ String "." r) = Ok p.
Proof.
  intros Hd. unfold flavor_prefix_of.
  by destruct (index_dot_app p r Hd) as [-> ->].
Qed.

Lemma flavor_prefix_of_dotless name :
  dotless name → flavor_prefix_of name = Raise (ValueError "substring not found").
Proof.
  intros Hd. unfold flavor_prefix_of.
  by rewrite (proj2 (index_dot_dotless name) Hd).
Qed.



Lemma binary64_get_total_charge_for_instance_unfold conn instance_id
  start end_ :
  Binary64.get_total_charge_for_instance conn instance_id start end_ =
  match get_charge_intervals_for_instance conn instance_id start end_ with
  | (t, Ok intervals) =>
      (t ++ [GetServer instance_id],
       flavor_prefix ← flavor_prefix_of
         (original_name (server_flavor (get_server conn instance_id)));
       Binary64.total_charge_of_intervals intervals
         (vcpus (server_flavor (get_server conn instance_id))) flavor_prefix)
  | (t, Raise e) => (t, Raise e)
  end.
Proof.
  unfold Binary64.get_total_charge_for_instance.
  destruct (get_charge_intervals_for_instance _ _ _ _) as [t [ivs|e]];
    [|done].
  cbn. by destruct (flavor_prefix_of _) as [p|e].
Qed.

Lemma binary64_produced_state_charged s :
  s ∈ PRODUCED_STATES → is_Some (Binary64.STATE_CHARGE_MULTIPLIERS !! s).
Proof.
  unfold PRODUCED_STATES. intros H.
  repeat (apply elem_of_cons in H as [->|H]; [by eexists|]).
  by apply elem_of_nil in H.
Qed.

(** The reconstructor returns at least one interval, and only states the
    charge table knows. *)
Lemma reconstructed_states_charged conn instance_id start end_ ivs :
  outcome (get_charge_intervals_for_instance conn instance_id start end_)
  = Ok ivs →
  (∃ iv rest, ivs = iv :: rest)
  ∧ Forall (λ iv, is_Some (Binary64.STATE_CHARGE_MULTIPLIERS !! i_state iv))
      ivs.
Proof.
  intros Hivs.
  destruct (get_charge_intervals_for_instance_ok _ _ _ _ _ Hivs)
    as (_ & actions & st & _ & Hrel & Hst & ->).
  split; [by eexists _, _|].
  constructor; [by apply binary64_produced_state_charged|].
  eapply Forall_impl;
    [apply action_intervals_states; by do 2 apply Forall_filter_keep|].
  intros iv. apply binary64_produced_state_charged.
Qed.

Lemma returns_or_overflows_raise {A} (P : A → Prop) e :
  Binary64.returns_or_overflows P (Raise e) → ∃ msg, e = OverflowError msg.
Proof. destruct e; try done. by eexists. Qed.

(** With a family outside the table the first interval already fails: its
    duration and the product [STATE[...] * vcpus] are computed first. *)
Lemma binary64_unknown_family iv rest n_vcpus flavor_prefix :
  is_Some (Binary64.STATE_CHARGE_MULTIPLIERS !! i_state iv) →
  Binary64.FLAVOR_TYPE_CHARGE_MULTIPLIERS !! flavor_prefix = None →
  Binary64.total_charge_of_intervals (iv :: rest) n_vcpus flavor_prefix
  = Raise (KeyError flavor_prefix)
  ∨ ∃ msg,
      Binary64.total_charge_of_intervals (iv :: rest) n_vcpus flavor_prefix
      = Raise (OverflowError msg).
Proof.
  intros [sm Hsm] Hfm. unfold Binary64.total_charge_of_intervals.
  cbn [for_each]. unfold Binary64.charge_step.
  pose proof (total_seconds_overflows (i_end iv - i_start iv)) as Hsecs.
  destruct (Binary64.total_seconds _) as [secs|e]; cbn [mbind result_bind].
  2:{ destruct (returns_or_overflows_raise _ _ Hsecs) as [msg ->].
      right. by eexists. }
  pose proof (truediv_3600_overflows secs) as Hhours.
  destruct (Binary64.truediv secs _) as [hours|e]; cbn [mbind result_bind].
  2:{ destruct (returns_or_overflows_raise _ _ Hhours) as [msg ->].
      right. by eexists. }
  rewrite (py_getitem_ok _ _ _ Hsm). cbn [mbind result_bind].
  pose proof (mul_overflows sm (Binary64.PyInt n_vcpus)) as Hmul.
  destruct (Binary64.mul sm _) as [k|e]; cbn [mbind result_bind].
  2:{ destruct (returns_or_overflows_raise _ _ Hmul) as [msg ->].
      right. by eexists. }
  left. unfold py_getitem. by rewrite Hfm.
Qed.

(** X4.  The charge calculator passes a failure of the reconstructor on
    unchanged, without a further provider call.  Otherwise it fetches the
    server record once more and then: fails with [ValueError] when the flavor
    name has no dot; fails with [KeyError] on the flavor family when the
    family is outside the table, unless the arithmetic before that lookup
    already raised [OverflowError]; and for a family in the table returns a
    float, the sum of the contributions of the reconstructed intervals as
    binary64 evaluates it, or raises [OverflowError].  It never fails on the
    state of an interval and never divides by zero. *)
Theorem X4_charge_outcomes conn instance_id start end_ :
  let name := original_name (server_flavor (get_server conn instance_id)) in
  let n_vcpus := vcpus (server_flavor (get_server conn instance_id)) in
  let charge :=
    Binary64.get_total_charge_for_instance conn instance_id start end_ in
  (∀ e,
     outcome (get_charge_intervals_for_instance conn instance_id start end_)
     = Raise e →
     charge
     = (calls (get_charge_intervals_for_instance conn instance_id start end_),
        Raise e))
  ∧ (∀ ivs,
       outcome (get_charge_intervals_for_instance conn instance_id start end_)
       = Ok ivs →
       calls charge
       = calls (get_charge_intervals_for_instance conn instance_id start end_)
         ++ [GetServer instance_id]
       ∧ (dotless name →
          outcome charge = Raise (ValueError "substring not found"))
       ∧ (∀ p r, dotless p → name = p +:+ String "." r →
          match Binary64.FLAVOR_TYPE_CHARGE_MULTIPLIERS !! p with
          | None =>
              outcome charge = Raise (KeyError p)
              ∨ ∃ msg, outcome charge = Raise (OverflowError msg)
          | Some fm =>
              outcome charge
              = (cs ← Binary64.contributions n_vcpus fm ivs;
                 Binary64.sum_from (Binary64.PyInt 0) cs)
              ∧ Binary64.returns_or_overflows Binary64.is_float
                  (outcome charge)
          end)).
Proof.
  intros name n_vcpus charge. subst charge.
  rewrite binary64_get_total_charge_for_instance_unfold. fold name n_vcpus.
  split.
  - intros e.
    by destruct (get_charge_intervals_for_instance _ _ _ _) as [t [ivs|e']];
      cbn; intros [= <-].
  - intros ivs Hivs.
    destruct (reconstructed_states_charged _ _ _ _ _ Hivs)
      as [(iv & rest & Hshape) Hcharged].
    destruct (get_charge_intervals_for_instance _ _ _ _) as [t [ivs'|e']];
      cbn in Hivs; [|done].
    injection Hivs as ->. cbn [calls outcome fst snd].
    split; [done|]. split.
    + intros Hd. by rewrite flavor_prefix_of_dotless.
    + intros p r Hd ->. rewrite flavor_prefix_of_app by done.
      cbn [mbind result_bind].
      destruct (Binary64.FLAVOR_TYPE_CHARGE_MULTIPLIERS !! p) as [fm|] eqn:Efm.
      * unfold Binary64.total_charge_of_intervals.
        rewrite (charge_loop_contributions _ _ fm) by
          (done || (eexists; vm_compute; reflexivity)).
        split; [done|].
        eapply returns_or_overflows_bind; [apply contributions_overflows|].
        intros cs [Hcs Hlen].
        eapply returns_or_overflows_impl; [by apply sum_from_overflows|].
        intros total. destruct cs; [by rewrite Hshape in Hlen|done].
      * rewrite Hshape in Hcharged |- *.
        apply binary64_unknown_family; [|done].
        by apply Forall_cons in Hcharged as [? _].
Qed.

Lemma X4_charge_outcomes_witness :
  outcome (Binary64.get_total_charge_for_instance
             (conn_of [ {| ra_action := "create"; ra_start_time := 0 |} ]
                0 "c3.large" 4) "i" 0 hour)
  = Raise (KeyError "c3")
  ∨ ∃ msg,
      outcome (Binary64.get_total_charge_for_instance
                 (conn_of [ {| ra_action := "create"; ra_start_time := 0 |} ]
                    0 "c3.large" 4) "i" 0 hour)
      = Raise (OverflowError msg).
Proof.
  refine (proj2 (proj2 (proj2 (X4_charge_outcomes
    (conn_of [ {| ra_action := "create"; ra_start_time := 0 |} ]
       0 "c3.large" 4) "i" 0 hour) _ _)) "c3" "large" _ _).
  - vm_compute. reflexivity.
  - cbn. by repeat split.
  - reflexivity.
Defined.

(** What the interpreter prints for the charges of some instances: 16.0 for
    two hours active with 4 vcpus of family g3, 0.25 for half an hour
    stopped with one vcpu of family m3. *)
Example binary64_get_total_charge_for_instance_two_hours :
  Binary64.get_total_charge_for_instance
    (conn_of [ {| ra_action := "create"; ra_start_time := 0 |} ]
       0 "g3.xl" 4) "i" 0 (2 * hour)
  = ([ServerActions "i"; GetServer "i"],
     Ok (Binary64.PyFloat (S754_finite false 4503599627370496 (-48)))).
Proof. vm_compute. reflexivity. Qed.

(** ** Durations and bounds of the charge *)

Lemma chained_total_duration s e ivs :
  chained s e ivs → total_duration ivs = e - s.
Proof.
  revert s. induction ivs as [|iv rest IH]; intros s; [done|].
  intros [<- H]. cbn [total_duration foldr].
  destruct rest as [|iv' rest']; [cbn; lia|].
  fold (total_duration (iv' :: rest')). rewrite (IH _ H). lia.
Qed.

(** X5.  The lengths of the returned intervals always add up to the length
    of the window, whatever the order of the actions. *)
Theorem X5_durations_add_up conn instance_id start end_ ivs :
  outcome (get_charge_intervals_for_instance conn instance_id start end_)
  = Ok ivs →
  total_duration ivs = end_ - start.
Proof.
  intros Hivs.
  destruct (get_charge_intervals_for_instance_ok _ _ _ _ _ Hivs)
    as (_ & actions & st & _ & _ & _ & ->).
  apply chained_total_duration, spec_intervals_chained.
Qed.

Lemma X5_durations_add_up_witness :
  total_duration
    [ {| i_start := 0; i_end := 5; i_state := "deleted" |};
      {| i_start := 5; i_end := 3; i_state := "active" |};
      {| i_start := 3; i_end := 10; i_state := "suspended" |} ]
  = 10 - 0.
Proof.
  apply (X5_durations_add_up
    (conn_of [{| ra_action := "pause"; ra_start_time := 3 |}]
       5 "m3.small" 1) "i").
  vm_compute. reflexivity.
Defined.



Lemma window_hours_scale start end_ :
  (window_hours start end_ == inject_Z (end_ - start) * (1 # 3600000000))%Q.
Proof. unfold window_hours. field. Qed.






(** *** The sign of the charge in binary64 *)

Lemma binary_round_aux_sign_clear mx ex lx :
  Binary64.sign_clear
    (binary_round_aux Binary64.prec Binary64.emax false mx ex lx).
Proof.
  unfold binary_round_aux.
  destruct (shr_fexp _ _ _ _ _) as [mrs' e'].
  destruct (shr_fexp _ _ _ _ _) as [mrs'' e''].
  destruct (shr_m mrs''); [done| |done].
  by destruct (_ <=? _).
Qed.

Lemma binary_normalize_sign_clear m e :
  0 ≤ m →
  Binary64.sign_clear
    (binary_normalize Binary64.prec Binary64.emax m e false).
Proof.
  intros Hm. destruct m as [|m|m]; [done| |lia].
  unfold binary_normalize, binary_round.
  destruct (shl_align _ _ _) as [mz ez]. apply binary_round_aux_sign_clear.
Qed.

Lemma int_to_float_sign_clear z f :
  0 ≤ z → Binary64.int_to_float z = Ok f → Binary64.sign_clear f.
Proof.
  intros Hz. unfold Binary64.int_to_float.
  pose proof (binary_normalize_sign_clear z 0 Hz) as Hs.
  destruct (binary_normalize _ _ _ _ _); intros [= <-]; done.
Qed.

Lemma int_true_divide_sign_clear a b f :
  0 ≤ a → 0 < b →
  Binary64.int_true_divide a b = Ok f → Binary64.sign_clear f.
Proof.
  intros Ha Hb. unfold Binary64.int_true_divide.
  rewrite (proj2 (Z.ltb_ge a 0)), (proj2 (Z.ltb_ge b 0)) by lia.
  case_decide; [done|]. case_decide; [by intros [= <-]|].
  destruct (SFdiv_core_binary _ _ _ _ _ _) as [[mz ez] lz].
  pose proof (binary_round_aux_sign_clear mz ez lz) as Hs.
  cbn [xorb].
  destruct (binary_round_aux _ _ _ _ _ _); intros [= <-]; done.
Qed.

Lemma SFmul_sign_clear x y :
  Binary64.sign_clear x → Binary64.sign_clear y →
  Binary64.sign_clear (SFmul Binary64.prec Binary64.emax x y).
Proof.
  destruct x as [sx|sx| |sx mx ex], y as [sy|sy| |sy my ey];
    cbn [Binary64.sign_clear]; intros Hx Hy; subst; try done.
  apply binary_round_aux_sign_clear.
Qed.

Lemma SFadd_sign_clear x y :
  Binary64.sign_clear x → Binary64.sign_clear y →
  Binary64.sign_clear (SFadd Binary64.prec Binary64.emax x y).
Proof.
  destruct x as [sx|sx| |sx mx ex], y as [sy|sy| |sy my ey];
    cbn [Binary64.sign_clear]; intros Hx Hy; subst; try done.
  unfold SFadd, cond_Zopp. by apply binary_normalize_sign_clear.
Qed.

Lemma SFdiv_sign_clear x y :
  Binary64.sign_clear x → Binary64.sign_clear y →
  Binary64.sign_clear (SFdiv Binary64.prec Binary64.emax x y).
Proof.
  destruct x as [sx|sx| |sx mx ex], y as [sy|sy| |sy my ey];
    cbn [Binary64.sign_clear]; intros Hx Hy; subst; try done.
  unfold SFdiv. destruct (SFdiv_core_binary _ _ _ _ _ _) as [[mz ez] lz].
  apply binary_round_aux_sign_clear.
Qed.

Lemma to_float_sign_clear x f :
  Binary64.not_negative x → Binary64.to_float x = Ok f →
  Binary64.sign_clear f.
Proof.
  destruct x as [z|g]; cbn [Binary64.not_negative Binary64.to_float].
  - apply int_to_float_sign_clear.
  - by intros Hg [= <-].
Qed.

Lemma float_mul_not_negative x y r :
  Binary64.not_negative x → Binary64.not_negative y →
  (a ← Binary64.to_float x; b ← Binary64.to_float y;
   Ok (Binary64.PyFloat (SFmul Binary64.prec Binary64.emax a b))) = Ok r →
  Binary64.not_negative r.
Proof.
  intros Hx Hy.
  pose proof (to_float_sign_clear x) as Hfx.
  pose proof (to_float_sign_clear y) as Hfy.
  destruct (Binary64.to_float x) as [a|]; [|done].
  destruct (Binary64.to_float y) as [b|]; [|done].
  cbn. intros [= <-]. apply SFmul_sign_clear; eauto.
Qed.

Lemma mul_not_negative x y r :
  Binary64.not_negative x → Binary64.not_negative y →
  Binary64.mul x y = Ok r → Binary64.not_negative r.
Proof.
  intros Hx Hy. destruct x as [a|f], y as [b|g]; unfold Binary64.mul;
    try by apply float_mul_not_negative.
  intros [= <-]. cbn in *. lia.
Qed.

Lemma float_add_not_negative x y r :
  Binary64.not_negative x → Binary64.not_negative y →
  (a ← Binary64.to_float x; b ← Binary64.to_float y;
   Ok (Binary64.PyFloat (SFadd Binary64.prec Binary64.emax a b))) = Ok r →
  Binary64.not_negative r.
Proof.
  intros Hx Hy.
  pose proof (to_float_sign_clear x) as Hfx.
  pose proof (to_float_sign_clear y) as Hfy.
  destruct (Binary64.to_float x) as [a|]; [|done].
  destruct (Binary64.to_float y) as [b|]; [|done].
  cbn. intros [= <-]. apply SFadd_sign_clear; eauto.
Qed.

Lemma add_not_negative x y r :
  Binary64.not_negative x → Binary64.not_negative y →
  Binary64.add x y = Ok r → Binary64.not_negative r.
Proof.
  intros Hx Hy. destruct x as [a|f], y as [b|g]; unfold Binary64.add;
    try by apply float_add_not_negative.
  intros [= <-]. cbn in *. lia.
Qed.

Lemma truediv_not_negative x b r :
  Binary64.not_negative x → 0 < b →
  Binary64.truediv x (Binary64.PyInt b) = Ok r → Binary64.not_negative r.
Proof.
  intros Hx Hb. destruct x as [a|f]; unfold Binary64.truediv.
  - pose proof (int_true_divide_sign_clear a b) as Hq.
    destruct (Binary64.int_true_divide a b) as [q|]; [|done].
    cbn. intros [= <-]. by apply Hq.
  - cbn [Binary64.to_float mbind result_bind].
    pose proof (int_to_float_sign_clear b) as Hfb.
    destruct (Binary64.int_to_float b) as [fb|]; [|done].
    cbn [mbind result_bind]. destruct (Binary64.is_zero fb); [done|].
    intros [= <-]. apply SFdiv_sign_clear; [done|]. apply Hfb; [lia|done].
Qed.

(** No multiplier of the two tables is negative. *)
Lemma state_multiplier_not_negative iv :
  Binary64.not_negative (Binary64.state_multiplier iv).
Proof.
  unfold Binary64.state_multiplier.
  destruct (Binary64.STATE_CHARGE_MULTIPLIERS !! i_state iv) as [sm|] eqn:E;
    [|done].
  unfold Binary64.STATE_CHARGE_MULTIPLIERS in E.
  apply elem_of_list_to_map_2 in E.
  repeat (apply elem_of_cons in E as [[= _ ->]|E]; [done|]).
  by apply elem_of_nil in E.
Qed.

Lemma binary64_flavor_multiplier_not_negative p fm :
  Binary64.FLAVOR_TYPE_CHARGE_MULTIPLIERS !! p = Some fm →
  Binary64.not_negative fm.
Proof.
  unfold Binary64.FLAVOR_TYPE_CHARGE_MULTIPLIERS. intros E.
  apply elem_of_list_to_map_2 in E.
  repeat (apply elem_of_cons in E as [[= _ ->]|E]; [done|]).
  by apply elem_of_nil in E.
Qed.

Lemma contribution_not_negative n_vcpus fm iv c :
  i_start iv ≤ i_end iv → 0 ≤ n_vcpus → Binary64.not_negative fm →
  Binary64.contribution n_vcpus fm iv = Ok c → Binary64.not_negative c.
Proof.
  intros Hiv Hv Hfm. unfold Binary64.contribution, Binary64.duration_hours.
  destruct (Binary64.truediv (Binary64.PyInt _) _) as [secs|] eqn:Esecs;
    [|done].
  apply truediv_not_negative in Esecs; [|cbn; lia|done].
  cbn [mbind result_bind].
  destruct (Binary64.truediv secs _) as [hours|] eqn:Ehours; [|done].
  apply truediv_not_negative in Ehours; [|done..].
  cbn [mbind result_bind].
  destruct (Binary64.mul (Binary64.state_multiplier iv) _) as [k|] eqn:Ek;
    [|done].
  apply mul_not_negative in Ek; [|apply state_multiplier_not_negative|done].
  cbn [mbind result_bind].
  destruct (Binary64.mul k fm) as [m|] eqn:Em; [|done].
  apply mul_not_negative in Em; [|done..].
  cbn [mbind result_bind]. by apply mul_not_negative.
Qed.

Lemma contributions_not_negative n_vcpus fm ivs cs :
  well_ordered ivs → 0 ≤ n_vcpus → Binary64.not_negative fm →
  Binary64.contributions n_vcpus fm ivs = Ok cs →
  Forall Binary64.not_negative cs.
Proof.
  intros Hord Hv Hfm. revert cs.
  induction Hord as [|iv rest Hiv _ IH]; intros cs.
  - by intros [= <-].
  - cbn [Binary64.contributions].
    destruct (Binary64.contribution n_vcpus fm iv) as [c|] eqn:Ec; [|done].
    cbn [mbind result_bind].
    destruct (Binary64.contributions n_vcpus fm rest) as [cs'|]; [|done].
    cbn [mbind result_bind]. intros [= <-]. constructor; [|by apply IH].
    by eapply contribution_not_negative.
Qed.

Lemma sum_from_not_negative total cs r :
  Binary64.not_negative total → Forall Binary64.not_negative cs →
  Binary64.sum_from total cs = Ok r → Binary64.not_negative r.
Proof.
  intros Htotal Hcs. revert total Htotal.
  induction Hcs as [|c cs Hc _ IH]; intros total Htotal.
  - by intros [= <-].
  - cbn [Binary64.sum_from].
    destruct (Binary64.add total c) as [total'|] eqn:Eadd; [|done].
    cbn [mbind result_bind]. apply IH. by apply (add_not_negative total c).
Qed.

(** What a successful charge computation went through. *)
Lemma binary64_get_total_charge_for_instance_ok conn instance_id start end_
  total :
  outcome (Binary64.get_total_charge_for_instance conn instance_id start end_)
  = Ok total →
  ∃ ivs p fm cs,
    outcome (get_charge_intervals_for_instance conn instance_id start end_)
    = Ok ivs
    ∧ flavor_prefix_of
        (original_name (server_flavor (get_server conn instance_id))) = Ok p
    ∧ Binary64.FLAVOR_TYPE_CHARGE_MULTIPLIERS !! p = Some fm
    ∧ Binary64.contributions
        (vcpus (server_flavor (get_server conn instance_id))) fm ivs = Ok cs
    ∧ Binary64.sum_from (Binary64.PyInt 0) cs = Ok total
    ∧ Binary64.is_float total.
Proof.
  rewrite binary64_get_total_charge_for_instance_unfold.
  destruct (get_charge_intervals_for_instance conn instance_id start end_)
    as [t [ivs|e]] eqn:E; [|done].
  assert (outcome (get_charge_intervals_for_instance conn instance_id
                     start end_) = Ok ivs) as Hivs by by rewrite E.
  destruct (reconstructed_states_charged _ _ _ _ _ Hivs)
    as [(iv & rest & Hshape) Hcharged].
  cbn [outcome snd].
  destruct (flavor_prefix_of _) as [p|e]; [|done]. cbn [mbind result_bind].
  destruct (Binary64.FLAVOR_TYPE_CHARGE_MULTIPLIERS !! p) as [fm|] eqn:Efm.
  - unfold Binary64.total_charge_of_intervals.
    rewrite (charge_loop_contributions _ _ fm) by
      (done || (eexists; vm_compute; reflexivity)).
    pose proof (contributions_overflows
                  (vcpus (server_flavor (get_server conn instance_id)))
                  fm ivs) as Hcs.
    destruct (Binary64.contributions _ fm ivs) as [cs|] eqn:Ecs; [|done].
    cbn [mbind result_bind]. cbn in Hcs. destruct Hcs as [Hcs Hlen].
    intros Htotal. exists ivs, p, fm, cs. repeat split; try done.
    pose proof (sum_from_overflows (Binary64.PyInt 0) cs Hcs) as Hsum.
    rewrite Htotal in Hsum. cbn in Hsum.
    destruct cs; [by rewrite Hshape in Hlen|done].
  - rewrite Hshape in Hcharged |- *.
    apply Forall_cons in Hcharged as [Hiv _].
    by destruct (binary64_unknown_family iv rest
                   (vcpus (server_flavor (get_server conn instance_id)))
                   p Hiv Efm) as [->|[msg ->]].
Qed.

(** X6.  On a history in ascending order and for a non-negative number of
    vcpus, the charge the interpreter returns is a float that is not
    negative: its sign bit is clear or it is not a number, so it never
    compares below zero.  (Not a number arises when a multiplier that
    overflowed to infinity meets an interval of length zero.) *)
Theorem X6_charge_not_negative conn instance_id start end_ actions total :
  outcome (get_actions_for_instance conn instance_id) = Ok actions →
  ascending actions →
  0 ≤ vcpus (server_flavor (get_server conn instance_id)) →
  outcome (Binary64.get_total_charge_for_instance conn instance_id start end_)
  = Ok total →
  ∃ x, total = Binary64.PyFloat x
       ∧ Binary64.sign_clear x
       ∧ SFltb x (S754_zero false) = false.
Proof.
  intros Hact Hasc Hv Htotal.
  destruct (binary64_get_total_charge_for_instance_ok _ _ _ _ _ Htotal)
    as (ivs & p & fm & cs & Hivs & Hp & Hfm & Hcs & Hsum & Hfloat).
  destruct (get_charge_intervals_for_instance_ok _ _ _ _ _ Hivs)
    as (Hse & actions' & st & Hact' & Hrel & Hst & Hshape).
  assert (actions' = actions) as -> by congruence.
  assert (well_ordered ivs) as Hord.
  { rewrite Hshape. apply spec_intervals_well_ordered; [done|..].
    - by do 2 apply ascending_filter.
    - apply filter_holds.
    - apply Forall_filter_keep, filter_holds. }
  assert (Binary64.not_negative total) as Hsign.
  { eapply sum_from_not_negative; [|
      eapply contributions_not_negative; [exact Hord|exact Hv| |exact Hcs]|
      exact Hsum].
    - cbn. lia.
    - by eapply binary64_flavor_multiplier_not_negative. }
  destruct total as [z|x]; [done|]. exists x. split; [done|].
  split; [done|].
  by destruct x as [sx|sx| |sx mx ex]; cbn in Hsign; subst.
Qed.

Lemma X6_charge_not_negative_witness :
  ∃ x,
    Binary64.PyFloat (S754_finite false 4503599627370496 (-49))
    = Binary64.PyFloat x
    ∧ Binary64.sign_clear x
    ∧ SFltb x (S754_zero false) = false.
Proof.
  apply (X6_charge_not_negative
    (conn_of [ {| ra_action := "create"; ra_start_time := 0 |};
               {| ra_action := "stop"; ra_start_time := hour |} ]
       0 "r3.large" 2) "i" 0 (3 * hour)
    [ {| a_action := "create"; a_time := 0 |};
      {| a_action := "stop"; a_time := hour |} ]).
  - vm_compute. reflexivity.
  - repeat constructor; unfold by_time; by vm_compute.
  - by vm_compute.
  - vm_compute. reflexivity.
Defined.

(** The sign is all there is: with [3 * 2^1022] vcpus of family g3 the
    multiplier of a paused instance overflows to infinity, and the
    zero-length interval that a pause at the very start of the window leaves
    makes the total not a number. *)
Example binary64_charge_not_a_number :
  outcome (Binary64.get_total_charge_for_instance
             (conn_of [ {| ra_action := "create"; ra_start_time := 0 |};
                        {| ra_action := "pause"; ra_start_time := hour |} ]
                0 "g3.large" (3 * 2 ^ 1022)) "i" hour (2 * hour))
  = Ok (Binary64.PyFloat S754_nan).
Proof. vm_compute. reflexivity. Qed.

(** ** Adjacent windows *)

Lemma filter_all {A} (P : A → Prop) `{!∀ a, Decision (P a)} l :
  Forall P l → filter P l = l.
Proof.
  induction 1 as [|x l Hx _ IH]; [done|]. by rewrite filter_cons_True, IH.
Qed.

Lemma filter_ext_Forall {A} (P Q : A → Prop)
  `{!∀ a, Decision (P a), !∀ a, Decision (Q a)} l :
  Forall (λ a, P a ↔ Q a) l → filter P l = filter Q l.
Proof.
  induction 1 as [|x l Hx _ IH]; [done|].
  rewrite !filter_cons, IH. repeat case_decide; try done; tauto.
Qed.

(** An ascending sequence is its part before [m] followed by its part from
    [m] on. *)
Lemma ascending_split m l :
  ascending l →
  l = filter (λ a, a_time a < m) l ++ filter (λ a, m ≤ a_time a) l.
Proof.
  induction 1 as [|a l Hasc IH Ha]; [done|].
  rewrite !filter_cons. case_decide as Hlt.
  - rewrite decide_False by lia. cbn. by rewrite <- IH.
  - rewrite decide_True by lia.
    rewrite (filter_none (λ a, a_time a < m) l), (filter_all _ l); [done|..].
    + eapply Forall_impl; [exact Ha|]. unfold by_time. intros; lia.
    + eapply Forall_impl; [exact Ha|]. unfold by_time. intros; lia.
Qed.

(** The kept actions of a window are those of its two halves. *)
Lemma kept_split s m e l :
  ascending l → s ≤ m → m ≤ e →
  filter (λ a, s ≤ a_time a ∧ a_time a < e) l
  = filter (λ a, s ≤ a_time a ∧ a_time a < m) l
    ++ filter (λ a, m ≤ a_time a ∧ a_time a < e) l.
Proof.
  intros Hasc Hsm Hme.
  rewrite (ascending_split m l Hasc) at 1.
  rewrite filter_app, !list_filter_filter. f_equal.
  - apply list_filter_iff. intros a. lia.
  - apply list_filter_iff. intros a. lia.
Qed.





(** On an ascending history with an action before [end_], the reconstructor
    returns [window_intervals]. *)
Lemma intervals_from_actions_ascending first rest start end_ :
  ascending (first :: rest) → Forall relevant (first :: rest) →
  a_time first < end_ →
  intervals_from_actions (first :: rest) start end_
  = Ok (window_intervals (first :: rest) start end_).
Proof.
  intros Hasc Hrel Hfirst.
  assert (filter (λ a, a_time a < end_) (first :: rest)
          = first :: filter (λ a, a_time a < end_) rest) as Hvis
    by by rewrite filter_cons_True.
  destruct (intervals_from_actions_shape (first :: rest) start end_ Hrel)
    as (st & Hst & _ & ->); [by rewrite Hvis|].
  unfold window_intervals, kept_actions. rewrite list_filter_filter.
  f_equal. f_equal.
  rewrite Hvis in Hst.
  rewrite determine_starting_state_ascending in Hst.
  - rewrite <- Hvis, list_filter_filter in Hst.
    unfold window_start_state. by case_decide; injection Hst as <-.
  - rewrite <- Hvis. by apply ascending_filter.
  - rewrite <- Hvis. by apply Forall_filter_keep.
Qed.

Lemma window_start_state_before A first s e :
  head A = Some first → s ≤ a_time first →
  window_start_state A s e = "deleted".
Proof.
  destruct A as [|a A']; [done|]. intros [= ->] Hs.
  unfold window_start_state. by rewrite decide_True.
Qed.

Lemma window_start_state_after A first s e :
  head A = Some first → a_time first < s →
  window_start_state A s e
  = from_option mapped_state ""
      (last (filter (λ a, a_time a ≤ s ∧ a_time a < e) A)).
Proof.
  destruct A as [|a A']; [done|]. intros [= ->] Hs.
  unfold window_start_state. by rewrite decide_False by lia.
Qed.


Lemma get_charge_intervals_for_instance_ascending conn instance_id start end_
  actions a :
  outcome (get_actions_for_instance conn instance_id) = Ok actions →
  ascending actions → a ∈ actions → a_time a < end_ → start ≤ end_ →
  outcome (get_charge_intervals_for_instance conn instance_id start end_)
  = Ok (window_intervals actions start end_).
Proof.
  intros Hact Hasc Ha Hlt Hse.
  rewrite (get_charge_intervals_for_instance_fetched _ _ _ _ _ Hse Hact).
  destruct (get_actions_for_instance_relevant _ _ _ Hact)
    as (Hrel & first & rest & -> & _).
  apply intervals_from_actions_ascending; [done..|].
  pose proof (ascending_head_earliest _ _ _ Hasc Ha). lia.
Qed.

(** *** Time accounting over adjacent windows *)

Lemma weighted_duration_cons rate iv ivs :
  weighted_duration rate (iv :: ivs)
  = rate (i_state iv) * (i_end iv - i_start iv) + weighted_duration rate ivs.
Proof. done. Qed.

(** Cutting the reconstructed intervals at [m], in whole microseconds. *)
Lemma weighted_duration_split rate l1 l2 s m e st :
  weighted_duration rate (spec_intervals s e st (l1 ++ l2))
  = weighted_duration rate (spec_intervals s m st l1)
    + weighted_duration rate
        (spec_intervals m e (from_option mapped_state st (last l1)) l2).
Proof.
  revert s st. induction l1 as [|a l1 IH]; intros s st.
  - cbn [app last from_option]. unfold spec_intervals.
    rewrite !weighted_duration_cons.
    cbn [i_state i_start i_end next_time action_intervals weighted_duration
         foldr].
    ring.
  - change (spec_intervals s e st ((a :: l1) ++ l2))
      with ({| i_start := s; i_end := a_time a; i_state := st |}
            :: spec_intervals (a_time a) e (mapped_state a) (l1 ++ l2)).
    change (spec_intervals s m st (a :: l1))
      with ({| i_start := s; i_end := a_time a; i_state := st |}
            :: spec_intervals (a_time a) m (mapped_state a) l1).
    rewrite !weighted_duration_cons, IH.
    replace (from_option mapped_state st (last (a :: l1)))
      with (from_option mapped_state (mapped_state a) (last l1)).
    + ring.
    + rewrite last_cons. by destruct (last l1).
Qed.

Lemma weighted_duration_zero_lead rate l s e st st' :
  next_time l e = s →
  weighted_duration rate (spec_intervals s e st l)
  = weighted_duration rate (spec_intervals s e st' l).
Proof.
  intros Hs. unfold spec_intervals. rewrite !weighted_duration_cons.
  cbn [i_state i_start i_end]. rewrite Hs, Z.sub_diag. ring.
Qed.

(** The time a window spends in each state is the sum over its two
    halves. *)
Lemma window_intervals_time_additive A first s m e rate :
  ascending A → head A = Some first → s ≤ m → m ≤ e → a_time first < m →
  weighted_duration rate (window_intervals A s m)
  + weighted_duration rate (window_intervals A m e)
  = weighted_duration rate (window_intervals A s e).
Proof.
  intros Hasc Hhead Hsm Hme Hfirst.
  assert (first ∈ A) as HfirstA.
  { destruct A as [|a A']; [done|]. injection Hhead as ->. left. }
  unfold window_intervals at 3. unfold kept_actions at 1.
  rewrite (kept_split s m e A Hasc Hsm Hme),
    (weighted_duration_split rate _ _ s m e).
  fold (kept_actions A s m) (kept_actions A m e).
  assert (weighted_duration rate
            (spec_intervals s m (window_start_state A s e) (kept_actions A s m))
          = weighted_duration rate (window_intervals A s m)) as ->.
  { unfold window_intervals. destruct (decide (s = m)) as [->|Hne].
    - apply weighted_duration_zero_lead. unfold kept_actions.
      rewrite filter_none; [done|]. apply Forall_forall. intros; lia.
    - replace (window_start_state A s e) with (window_start_state A s m);
        [done|].
      destruct (decide (s ≤ a_time first)) as [Hs|Hs].
      + by rewrite !(window_start_state_before A first).
      + rewrite !(window_start_state_after A first) by (done || lia).
        do 2 f_equal. apply list_filter_iff. intros a. lia. }
  assert (weighted_duration rate
            (spec_intervals m e
               (from_option mapped_state (window_start_state A s e)
                  (last (kept_actions A s m)))
               (kept_actions A m e))
          = weighted_duration rate (window_intervals A m e)) as ->;
    [|reflexivity].
  unfold window_intervals.
  destruct (decide (next_time (kept_actions A m e) e = m)) as [Hz|Hnz];
    [by apply weighted_duration_zero_lead|].
  assert (Forall (λ a, m ≤ a_time a ∧ a_time a < e) (kept_actions A m e))
    as Hin by apply filter_holds.
  assert (ascending (kept_actions A m e)) as HascK by by apply ascending_filter.
  assert (m < e ∧ Forall (λ a, a_time a ≠ m) A) as [Hlt Hnom].
  { destruct (kept_actions A m e) as [|b K] eqn:EK.
    - cbn in Hnz. split; [lia|]. apply Forall_forall. intros a Ha Heq.
      apply (filter_nil_not_elem_of _ _ a EK); [lia|done].
    - cbn in Hnz. apply Forall_cons in Hin as [Hb _]. split; [lia|].
      apply Forall_forall. intros a Ha Heq.
      assert (a ∈ b :: K) as HaK.
      { rewrite <- EK. apply list_elem_of_filter. split; [lia|done]. }
      pose proof (ascending_head_earliest _ _ _ HascK HaK). lia. }
  assert (from_option mapped_state (window_start_state A s e)
            (last (kept_actions A s m))
          = window_start_state A m e) as ->; [|reflexivity].
  rewrite (window_start_state_after A first m e) by done.
  rewrite (filter_ext_Forall (λ a, a_time a ≤ m ∧ a_time a < e)
             (λ a, a_time a < m) A).
  2:{ eapply Forall_impl; [exact Hnom|]. cbn. intros; lia. }
  assert (filter (λ a, a_time a < m) A
          = filter (λ a, a_time a < s) A ++ kept_actions A s m) as ->.
  { rewrite (ascending_split s A Hasc) at 1.
    rewrite filter_app, !list_filter_filter. unfold kept_actions.
    f_equal; apply list_filter_iff; intros a; lia. }
  rewrite last_app.
  destruct (last (kept_actions A s m)) as [y|] eqn:Elast; [done|].
  cbn [from_option]. apply last_None in Elast.
  destruct (decide (s ≤ a_time first)) as [Hs|Hs].
  - exfalso. apply (filter_nil_not_elem_of _ _ first Elast); [lia|done].
  - rewrite (window_start_state_after A first s e) by (done || lia).
    do 2 f_equal. apply filter_ext_Forall, Forall_forall. intros a Ha.
    assert (a_time a ≠ s) as Hnos.
    { intros Heq. destruct (decide (s = m)) as [->|Hne].
      - rewrite Forall_forall in Hnom. by apply (Hnom a).
      - apply (filter_nil_not_elem_of _ _ a Elast); [lia|done]. }
    lia.
Qed.

(** X7.  Time accounting is additive over adjacent windows: on a history in
    ascending order with an action before [m], the reconstructions of the
    windows [[s, m)], [[m, e)] and [[s, e)] all return, and for every state
    the microseconds the first two spend in it add up to those of the third;
    so does every sum of interval lengths weighted by an integer rate per
    state.  (The charges themselves, being rounded, need not add up.) *)
Theorem X7_adjacent_windows conn instance_id s m e actions a :
  outcome (get_actions_for_instance conn instance_id) = Ok actions →
  ascending actions →
  a ∈ actions → a_time a < m →
  s ≤ m → m ≤ e →
  ∃ i1 i2 i,
    outcome (get_charge_intervals_for_instance conn instance_id s m) = Ok i1
    ∧ outcome (get_charge_intervals_for_instance conn instance_id m e) = Ok i2
    ∧ outcome (get_charge_intervals_for_instance conn instance_id s e) = Ok i
    ∧ (∀ state,
         time_in_state state i1 + time_in_state state i2
         = time_in_state state i)
    ∧ (∀ rate,
         weighted_duration rate i1 + weighted_duration rate i2
         = weighted_duration rate i).
Proof.
  intros Hact Hasc Ha Hlt Hsm Hme.
  pose proof (get_charge_intervals_for_instance_ascending
    conn instance_id s m actions a Hact Hasc Ha Hlt Hsm) as H1.
  pose proof (get_charge_intervals_for_instance_ascending
    conn instance_id m e actions a Hact Hasc Ha ltac:(lia) Hme) as H2.
  pose proof (get_charge_intervals_for_instance_ascending
    conn instance_id s e actions a Hact Hasc Ha ltac:(lia) ltac:(lia)) as H3.
  eexists _, _, _. repeat (split; [done|]).
  destruct (get_actions_for_instance_relevant _ _ _ Hact)
    as (_ & first & rest & -> & _).
  assert (a_time first < m) as Hfirst.
  { pose proof (ascending_head_earliest _ _ _ Hasc Ha). lia. }
  split; intros; unfold time_in_state;
    by apply (window_intervals_time_additive _ first s m e).
Qed.

Lemma X7_adjacent_windows_witness :
  ∃ i1 i2 i,
    outcome (get_charge_intervals_for_instance
               (conn_of [ {| ra_action := "create"; ra_start_time := 0 |};
                          {| ra_action := "stop"; ra_start_time := hour |} ]
                  0 "r3.large" 2) "i" 0 (2 * hour)) = Ok i1
    ∧ outcome (get_charge_intervals_for_instance
                 (conn_of [ {| ra_action := "create"; ra_start_time := 0 |};
                            {| ra_action := "stop"; ra_start_time := hour |} ]
                    0 "r3.large" 2) "i" (2 * hour) (3 * hour)) = Ok i2
    ∧ outcome (get_charge_intervals_for_instance
                 (conn_of [ {| ra_action := "create"; ra_start_time := 0 |};
                            {| ra_action := "stop"; ra_start_time := hour |} ]
                    0 "r3.large" 2) "i" 0 (3 * hour)) = Ok i
    ∧ (∀ state,
         time_in_state state i1 + time_in_state state i2
         = time_in_state state i)
    ∧ (∀ rate,
         weighted_duration rate i1 + weighted_duration rate i2
         = weighted_duration rate i).
Proof.
  apply (X7_adjacent_windows
    (conn_of [ {| ra_action := "create"; ra_start_time := 0 |};
               {| ra_action := "stop"; ra_start_time := hour |} ]
       0 "r3.large" 2) "i" 0 (2 * hour) (3 * hour)
    [ {| a_action := "create"; a_time := 0 |};
      {| a_action := "stop"; a_time := hour |} ]
    {| a_action := "create"; a_time := 0 |}).
  - vm_compute. reflexivity.
  - repeat constructor; unfold by_time; by vm_compute.
  - left.
  - by vm_compute.
  - by vm_compute.
  - by vm_compute.
Defined.

(** The stopped time of the example: none in the first hour, two hours in
    the window [[0, 3h)]. *)
Example time_in_state_stopped :
  ∀ ivs,
    outcome (get_charge_intervals_for_instance
               (conn_of [ {| ra_action := "create"; ra_start_time := 0 |};
                          {| ra_action := "stop"; ra_start_time := hour |} ]
                  0 "r3.large" 2) "i" 0 (3 * hour)) = Ok ivs →
    time_in_state "stopped" ivs = 2 * hour
    ∧ time_in_state "active" ivs = hour
    ∧ time_in_state "deleted" ivs = 0.
Proof. intros ivs [= <-]. by vm_compute. Qed.

(** The rounded charges of adjacent windows need not add up: for one vcpu of
    family m3, active from time 0, the first second and the two seconds
    after it are charged [5124095576030431 / 2^64] and
    [5124095576030431 / 2^63], whose float sum is
    [7686143364045646 / 2^63], while the three seconds together are charged
    [7686143364045647 / 2^63]. *)
Example binary64_windows_not_additive :
  let conn := conn_of [ {| ra_action := "create"; ra_start_time := 0 |} ]
                0 "m3.tiny" 1 in
  outcome (Binary64.get_total_charge_for_instance conn "i" 0 1000000)
  = Ok (Binary64.PyFloat (S754_finite false 5124095576030431 (-64)))
  ∧ outcome (Binary64.get_total_charge_for_instance conn "i" 1000000 3000000)
    = Ok (Binary64.PyFloat (S754_finite false 5124095576030431 (-63)))
  ∧ outcome (Binary64.get_total_charge_for_instance conn "i" 0 3000000)
    = Ok (Binary64.PyFloat (S754_finite false 7686143364045647 (-63)))
  ∧ Binary64.add
      (Binary64.PyFloat (S754_finite false 5124095576030431 (-64)))
      (Binary64.PyFloat (S754_finite false 5124095576030431 (-63)))
    = Ok (Binary64.PyFloat (S754_finite false 7686143364045646 (-63))).
Proof. repeat split; vm_compute; reflexivity. Qed.

(** ** The order in which the provider reports actions *)

Lemma filter_time_short t l :
  NoDup (a_time <$> l) →
  filter (λ a, a_time a = t) l = []
  ∨ ∃ x, filter (λ a, a_time a = t) l = [x].
Proof.
  induction l as [|a l IH]; [by left|].
  rewrite fmap_cons, NoDup_cons. intros [Hnotin Hnodup].
  rewrite filter_cons. case_decide as Ht; [|by apply IH].
  right. exists a. f_equal. apply filter_none, Forall_forall.
  intros b Hb Hbt. apply Hnotin, list_elem_of_fmap.
  exists b. split; [congruence|done].
Qed.

(** With distinct timestamps, the sorted sequence depends on the reported
    actions only, not on their order. *)
Lemma sort_by_time_perm_eq l l' :
  l ≡ₚ l' → NoDup (a_time <$> l) → sort_by_time l = sort_by_time l'.
Proof.
  intros Hperm Hnodup. apply sort_by_time_unique.
  - apply sort_by_time_ascending.
  - intros t. rewrite sort_by_time_stable.
    assert (filter (λ a, a_time a = t) l ≡ₚ filter (λ a, a_time a = t) l')
      as Hf by by rewrite Hperm.
    destruct (filter_time_short t l Hnodup) as [E|[x E]]; rewrite E in Hf |- *.
    + by apply Permutation_nil_l in Hf.
    + by apply Permutation_singleton_l in Hf.
Qed.

(** X8.  The normalizer does not depend on the order in which the provider
    lists the actions, nor on the actions of irrelevant kinds: two
    connections that report the same relevant actions, with pairwise distinct
    timestamps, in any order, and the same creation time, are normalized
    alike and with the same provider calls. *)
Theorem X8_normalizer_order conn conn' instance_id :
  relevant_actions (server_actions conn instance_id)
  ≡ₚ relevant_actions (server_actions conn' instance_id) →
  NoDup (a_time <$> relevant_actions (server_actions conn instance_id)) →
  created_at (get_server conn instance_id)
  = created_at (get_server conn' instance_id) →
  get_actions_for_instance conn instance_id
  = get_actions_for_instance conn' instance_id.
Proof.
  intros Hperm Hnodup Hcreated.
  rewrite !get_actions_for_instance_unfold.
  rewrite (sort_by_time_perm_eq _ _ Hperm Hnodup).
  unfold synthesized_create. by rewrite Hcreated.
Qed.

Lemma X8_normalizer_order_witness :
  get_actions_for_instance
    (conn_of [ {| ra_action := "stop"; ra_start_time := 7 |};
               {| ra_action := "attach_volume"; ra_start_time := 2 |};
               {| ra_action := "create"; ra_start_time := 1 |} ]
       1 "m3.small" 1) "i"
  = get_actions_for_instance
      (conn_of [ {| ra_action := "create"; ra_start_time := 1 |};
                 {| ra_action := "stop"; ra_start_time := 7 |} ]
         1 "m3.medium" 2) "i".
Proof.
  apply X8_normalizer_order.
  - vm_compute. apply Permutation_swap.
  - apply (bool_decide_unpack _). vm_compute. exact I.
  - reflexivity.
Defined.

(** ** Actions at or after the end of the window *)

Lemma insert_by_time_filter_before e x l :
  ascending l →
  filter (λ a, a_time a < e) (insert_by_time x l)
  = if decide (a_time x < e)
    then insert_by_time x (filter (λ a, a_time a < e) l)
    else filter (λ a, a_time a < e) l.
Proof.
  induction 1 as [|y l Hasc IH Hy]; cbn [insert_by_time].
  - rewrite filter_cons, filter_nil. by case_decide.
  - assert (¬ a_time y < e → filter (λ a, a_time a < e) l = []) as Hlate.
    { intros Hlate. apply filter_none. eapply Forall_impl; [exact Hy|].
      unfold by_time. intros; lia. }
    assert (a_time x < e ∨ ¬ a_time x < e) as [Hx|Hx] by lia;
      (assert (a_time x ≤ a_time y ∨ ¬ a_time x ≤ a_time y) as [Hxy|Hxy]
         by lia).
    + rewrite (decide_True (P := a_time x ≤ a_time y)) by done.
      rewrite (decide_True (P := a_time x < e)) by done.
      rewrite (filter_cons_True _ x) by done.
      assert (a_time y < e ∨ ¬ a_time y < e) as [Hye|Hye] by lia.
      * rewrite (filter_cons_True _ y) by done. cbn [insert_by_time].
        by rewrite decide_True.
      * rewrite (filter_cons_False _ y) by done. by rewrite Hlate.
    + rewrite (decide_False (P := a_time x ≤ a_time y)) by done.
      rewrite (decide_True (P := a_time x < e)) in IH |- * by done.
      rewrite !(filter_cons_True _ y) by lia. rewrite IH.
      cbn [insert_by_time]. by rewrite decide_False.
    + rewrite (decide_True (P := a_time x ≤ a_time y)) by done.
      rewrite (decide_False (P := a_time x < e)) by done.
      by rewrite (filter_cons_False _ x).
    + rewrite (decide_False (P := a_time x ≤ a_time y)) by done.
      rewrite (decide_False (P := a_time x < e)) in IH |- * by done.
      by rewrite !(filter_cons _ y), IH.
Qed.

(** Sorting and dropping the actions from [e] on commute. *)
Lemma sort_by_time_filter_before e l :
  filter (λ a, a_time a < e) (sort_by_time l)
  = sort_by_time (filter (λ a, a_time a < e) l).
Proof.
  induction l as [|x l IH]; [done|].
  cbn [sort_by_time foldr]. fold (sort_by_time l).
  rewrite insert_by_time_filter_before by apply sort_by_time_ascending.
  rewrite filter_cons, IH. by case_decide.
Qed.

Lemma ascending_filter_before_head e l :
  ascending l → filter (λ a, a_time a < e) l ≠ [] →
  head (filter (λ a, a_time a < e) l) = head l.
Proof.
  intros Hasc Hne. destruct l as [|h l]; [done|].
  apply StronglySorted_inv in Hasc as [_ Hh].
  destruct (decide (a_time h < e)) as [Hlt|Hge].
  - by rewrite filter_cons_True.
  - destruct Hne. rewrite filter_cons_False by done.
    apply filter_none. eapply Forall_impl; [exact Hh|].
    unfold by_time. intros; lia.
Qed.

Lemma intervals_from_actions_visible l l' start end_ :
  filter (λ a, a_time a < end_) l = filter (λ a, a_time a < end_) l' →
  intervals_from_actions l start end_ = intervals_from_actions l' start end_.
Proof. unfold intervals_from_actions. by intros ->. Qed.

(** X9.  Actions at or after the end of the window do not matter: two
    connections whose relevant actions before [end_] are the same, and not
    none, and whose creation times agree, get the same intervals (or the same
    exception) with the same provider calls, whatever they report from
    [end_] on. *)
Theorem X9_later_actions_ignored conn conn' instance_id start end_ :
  filter (λ a, a_time a < end_)
    (relevant_actions (server_actions conn instance_id))
  = filter (λ a, a_time a < end_)
      (relevant_actions (server_actions conn' instance_id)) →
  filter (λ a, a_time a < end_)
    (relevant_actions (server_actions conn instance_id)) ≠ [] →
  created_at (get_server conn instance_id)
  = created_at (get_server conn' instance_id) →
  get_charge_intervals_for_instance conn instance_id start end_
  = get_charge_intervals_for_instance conn' instance_id start end_.
Proof.
  intros Hsame Hne Hcreated.
  set (R := relevant_actions (server_actions conn instance_id)) in *.
  set (R' := relevant_actions (server_actions conn' instance_id)) in *.
  assert (filter (λ a, a_time a < end_) (sort_by_time R)
          = filter (λ a, a_time a < end_) (sort_by_time R')) as Hsorted
    by by rewrite !sort_by_time_filter_before, Hsame.
  assert (filter (λ a, a_time a < end_) (sort_by_time R) ≠ []) as Hne1.
  { rewrite sort_by_time_filter_before. by rewrite sort_by_time_nil. }
  assert (filter (λ a, a_time a < end_) (sort_by_time R') ≠ []) as Hne2
    by by rewrite <- Hsorted.
  pose proof (ascending_filter_before_head end_ _
                (sort_by_time_ascending R) Hne1) as Hh.
  pose proof (ascending_filter_before_head end_ _
                (sort_by_time_ascending R') Hne2) as Hh'.
  rewrite Hsorted, Hh' in Hh.
  rewrite !get_charge_intervals_for_instance_unfold.
  case_decide; [done|].
  rewrite !get_actions_for_instance_unfold. fold R R'.
  destruct (sort_by_time R) as [|h S] eqn:E; [done|].
  destruct (sort_by_time R') as [|h' S'] eqn:E'; [done|].
  injection Hh as ->.
  case_decide.
  - f_equal. by apply intervals_from_actions_visible.
  - f_equal. apply intervals_from_actions_visible.
    unfold synthesized_create. rewrite Hcreated.
    by rewrite !(filter_cons _ {| a_action := "create" |}), Hsorted.
Qed.

Lemma X9_later_actions_ignored_witness :
  get_charge_intervals_for_instance
    (conn_of [ {| ra_action := "create"; ra_start_time := 1 |};
               {| ra_action := "stop"; ra_start_time := 7 |} ]
       1 "m3.small" 1) "i" 2 9
  = get_charge_intervals_for_instance
      (conn_of [ {| ra_action := "delete"; ra_start_time := 20 |};
                 {| ra_action := "create"; ra_start_time := 1 |};
                 {| ra_action := "start"; ra_start_time := 9 |};
                 {| ra_action := "stop"; ra_start_time := 7 |} ]
         1 "m3.small" 1) "i" 2 9.
Proof.
  apply X9_later_actions_ignored.
  - vm_compute. reflexivity.
  - vm_compute. discriminate.
  - reflexivity.
Defined.

(** ** The state at the end of the window *)

Lemma last_spec_intervals s e st l :
  last (spec_intervals s e st l)
  = Some (from_option
            (λ a, {| i_start := a_time a; i_end := e;
                     i_state := mapped_state a |})
            {| i_start := s; i_end := e; i_state := st |}
            (last l)).
Proof.
  revert s st. induction l as [|a l IH]; intros s st; [done|].
  change (spec_intervals s e st (a :: l))
    with ({| i_start := s; i_end := a_time a; i_state := st |}
          :: spec_intervals (a_time a) e (mapped_state a) l).
  rewrite last_cons, IH, (last_cons a l). by destruct (last l).
Qed.

(** A normal return on a fetched history means some action is before the
    end of the window. *)
Lemma get_charge_intervals_for_instance_visible conn instance_id start end_
  actions ivs :
  outcome (get_actions_for_instance conn instance_id) = Ok actions →
  outcome (get_charge_intervals_for_instance conn instance_id start end_)
  = Ok ivs →
  start ≤ end_ ∧ ∃ a, a ∈ actions ∧ a_time a < end_.
Proof.
  intros Hact Hivs.
  destruct (get_charge_intervals_for_instance_ok _ _ _ _ _ Hivs) as [Hse _].
  split; [done|].
  rewrite (get_charge_intervals_for_instance_fetched _ _ _ _ _ Hse Hact)
    in Hivs.
  destruct (filter (λ a, a_time a < end_) actions) as [|a l] eqn:E.
  { by rewrite intervals_from_actions_empty in Hivs. }
  exists a.
  assert (a ∈ filter (λ a, a_time a < end_) actions) as Ha
    by (rewrite E; left).
  apply list_elem_of_filter in Ha as [? ?]. done.
Qed.

(** X10.  On a history in ascending order, the last returned interval ends
    at the end of the window and carries the state that the latest action
    before the end of the window leads to. *)
Theorem X10_final_state conn instance_id start end_ actions ivs :
  outcome (get_actions_for_instance conn instance_id) = Ok actions →
  ascending actions →
  outcome (get_charge_intervals_for_instance conn instance_id start end_)
  = Ok ivs →
  ∃ a iv,
    last (filter (λ a, a_time a < end_) actions) = Some a
    ∧ last ivs = Some iv
    ∧ i_end iv = end_
    ∧ ACTION_TO_STATE_LOOKUP !! a_action a = Some (i_state iv).
Proof.
  intros Hact Hasc Hivs.
  destruct (get_charge_intervals_for_instance_visible _ _ _ _ _ _ Hact Hivs)
    as (Hse & b & Hb & Hbe).
  rewrite (get_charge_intervals_for_instance_ascending
             _ _ _ _ _ b Hact Hasc Hb Hbe Hse) in Hivs.
  injection Hivs as <-.
  destruct (get_actions_for_instance_relevant _ _ _ Hact)
    as (Hrel & first & rest & -> & _).
  set (A := first :: rest) in *.
  assert (a_time first < end_) as Hfirst.
  { pose proof (ascending_head_earliest _ _ _ Hasc Hb). lia. }
  set (V := filter (λ a, a_time a < end_) A).
  assert (V = filter (λ a, a_time a < start) V ++ kept_actions A start end_)
    as HV.
  { rewrite (ascending_split start V) at 1 by by apply ascending_filter.
    f_equal. unfold V, kept_actions. apply list_filter_filter. }
  assert (∀ a, last V = Some a →
               ACTION_TO_STATE_LOOKUP !! a_action a = Some (mapped_state a))
    as Hmapped.
  { intros a Ha. apply mapped_state_relevant.
    apply last_Some_elem_of, list_elem_of_filter in Ha as [_ Ha].
    rewrite Forall_forall in Hrel. by apply Hrel. }
  unfold window_intervals. rewrite last_spec_intervals.
  destruct (last (kept_actions A start end_)) as [a|] eqn:Elast.
  - exists a. eexists. split; [|split; [done|split; [done|]]].
    + rewrite HV, last_app. by rewrite Elast.
    + cbn. apply Hmapped. rewrite HV, last_app. by rewrite Elast.
  - apply last_None in Elast.
    assert (first ∈ V) as HfV.
    { apply list_elem_of_filter. split; [done|left]. }
    destruct (last V) as [a|] eqn:ElastV.
    2:{ apply last_None in ElastV. rewrite ElastV in HfV.
        by apply elem_of_nil in HfV. }
    exists a. eexists. split; [done|]. split; [done|]. split; [done|].
    cbn [from_option i_state].
    assert (a_time first < start) as Hs.
    { destruct (decide (start ≤ a_time first)) as [Hle|]; [|lia].
      exfalso. apply (filter_nil_not_elem_of _ _ first Elast); [lia|left]. }
    rewrite (window_start_state_after A first) by done.
    rewrite (filter_ext_Forall (λ a, a_time a ≤ start ∧ a_time a < end_)
               (λ a, a_time a < end_) A).
    + fold V. rewrite ElastV. cbn. by apply Hmapped.
    + apply Forall_forall. intros c Hc. split; [lia|]. intros Hce.
      split; [|done].
      destruct (decide (a_time c ≤ start)) as [|Hgt]; [done|].
      exfalso. apply (filter_nil_not_elem_of _ _ c Elast); [lia|done].
Qed.

Lemma X10_final_state_witness :
  ∃ a iv,
    last (filter (λ a, a_time a < 9)
            [ {| a_action := "create"; a_time := 1 |};
              {| a_action := "stop"; a_time := 7 |} ]) = Some a
    ∧ last [ {| i_start := 2; i_end := 7; i_state := "active" |};
             {| i_start := 7; i_end := 9; i_state := "stopped" |} ] = Some iv
    ∧ i_end iv = 9
    ∧ ACTION_TO_STATE_LOOKUP !! a_action a = Some (i_state iv).
Proof.
  apply (X10_final_state
    (conn_of [ {| ra_action := "create"; ra_start_time := 1 |};
               {| ra_action := "stop"; ra_start_time := 7 |} ]
       1 "m3.small" 1) "i" 2 9).
  - vm_compute. reflexivity.
  - repeat constructor; unfold by_time; by vm_compute.
  - vm_compute. reflexivity.
Defined.

(** ** Longer windows *)




(** ** Intervals stay inside the window *)

Lemma action_intervals_within s e l :
  Forall (λ a, s ≤ a_time a ∧ a_time a < e) l →
  Forall (λ iv, (s ≤ i_start iv ∧ i_start iv ≤ e)
                ∧ (s ≤ i_end iv ∧ i_end iv ≤ e))
    (action_intervals l e).
Proof.
  induction 1 as [|a l Ha Hl IH]; [constructor|].
  constructor; [|done]. cbn.
  destruct Hl as [|b l' Hb _]; cbn; lia.
Qed.

(** X12.  No returned interval reaches outside the window: every boundary
    of every interval lies between [start] and [end_], whatever the order of
    the actions. *)
Theorem X12_intervals_within_window conn instance_id start end_ ivs :
  outcome (get_charge_intervals_for_instance conn instance_id start end_)
  = Ok ivs →
  Forall (λ iv, (start ≤ i_start iv ∧ i_start iv ≤ end_)
                ∧ (start ≤ i_end iv ∧ i_end iv ≤ end_)) ivs.
Proof.
  intros Hivs.
  destruct (get_charge_intervals_for_instance_ok _ _ _ _ _ Hivs)
    as (Hse & actions & st & _ & _ & _ & ->).
  set (kept := filter (λ a, start ≤ a_time a)
                 (filter (λ a, a_time a < end_) actions)).
  assert (Forall (λ a, start ≤ a_time a ∧ a_time a < end_) kept) as Hkept.
  { apply Forall_forall. intros a Ha.
    apply list_elem_of_filter in Ha as [? Ha].
    by apply list_elem_of_filter in Ha as [? _]. }
  constructor; [|by apply action_intervals_within].
  cbn. destruct Hkept as [|a l Ha _]; cbn; lia.
Qed.

Lemma X12_intervals_within_window_witness :
  Forall (λ iv, (0 ≤ i_start iv ∧ i_start iv ≤ 10)
                ∧ (0 ≤ i_end iv ∧ i_end iv ≤ 10))
    [ {| i_start := 0; i_end := 5; i_state := "deleted" |};
      {| i_start := 5; i_end := 3; i_state := "active" |};
      {| i_start := 3; i_end := 10; i_state := "suspended" |} ].
Proof.
  apply (X12_intervals_within_window
    (conn_of [{| ra_action := "pause"; ra_start_time := 3 |}]
       5 "m3.small" 1) "i").
  vm_compute. reflexivity.
Defined.

(** ** The time before the first action *)




(** ** Normalizing twice *)

Lemma sort_by_time_ascending_id l : ascending l → sort_by_time l = l.
Proof. intros Hasc. symmetry. by apply sort_by_time_unique. Qed.

(** X14.  Normalization is idempotent on ascending results: when a
    connection reports exactly an ascending sequence that the normalizer
    returned, the normalizer returns it unchanged, and without fetching the
    server record. *)
Theorem X14_normalizer_idempotent conn conn' instance_id actions :
  outcome (get_actions_for_instance conn instance_id) = Ok actions →
  ascending actions →
  parse_action <$> server_actions conn' instance_id = actions →
  get_actions_for_instance conn' instance_id
  = ([ServerActions instance_id], Ok actions).
Proof.
  intros Hact Hasc Hraw.
  destruct (get_actions_for_instance_relevant _ _ _ Hact)
    as (Hrel & first & rest & Hshape & Hcreate).
  rewrite get_actions_for_instance_unfold.
  unfold relevant_actions. rewrite Hraw.
  rewrite (filter_all (λ a, a_action a ∈ RELEVANT_EVENTS) actions) by done.
  rewrite sort_by_time_ascending_id by done.
  rewrite Hshape. by rewrite decide_True.
Qed.

Lemma X14_normalizer_idempotent_witness :
  get_actions_for_instance
    (conn_of [ {| ra_action := "create"; ra_start_time := 0 |};
               {| ra_action := "pause"; ra_start_time := 3 |} ]
       9 "m3.small" 1) "i"
  = ([ServerActions "i"],
     Ok [ {| a_action := "create"; a_time := 0 |};
          {| a_action := "pause"; a_time := 3 |} ]).
Proof.
  apply (X14_normalizer_idempotent
    (conn_of [{| ra_action := "pause"; ra_start_time := 3 |}]
       0 "m3.small" 1)).
  - vm_compute. reflexivity.
  - repeat constructor; unfold by_time; by vm_compute.
  - reflexivity.
Defined.
